(** * VoteEd: vote integrity, tallies and voter completion status

    A shallow embedding of the storage layer ([server/storage.ts]), of the
    voting and listing routes ([server/routes.ts]), of the schema
    ([shared/schema.ts]) and of the status badge of the home page
    ([getUserVotingStatus] of the [HomePage] component).

    Tables are lists of rows in the order in which a scan of the table yields
    them; when a row was created is the value of its [createdAt] column.
    Storage methods are actions of a small state-and-exception monad over the
    database; route handlers run them inside their [try]/[catch]. *)

From Stdlib Require Import List String Ascii ZArith NArith Bool Arith Lia.
From Stdlib Require Import Permutation Sorted.
Import ListNotations.
Local Open Scope string_scope.
Local Open Scope list_scope.

(** ** Schema ([shared/schema.ts]) *)

Definition uuid := string.
Definition timestamp := Z.
Bind Scope Z_scope with timestamp.

Module User.
Record t := mk {
  id : uuid;
  username : string;
  email : string;
  password : string;
  firstName : string;
  lastName : string;
  role : string;
  isVerified : bool;
  createdAt : timestamp }.
End User.

Module Club.
Record t := mk {
  id : uuid;
  name : string;
  description : option string;
  icon : string;
  createdAt : timestamp }.
End Club.

Module Position.
Record t := mk {
  id : uuid;
  name : string;
  clubId : uuid;
  description : option string;
  createdAt : timestamp }.
End Position.

Module Election.
Record t := mk {
  id : uuid;
  clubId : uuid;
  title : string;
  description : option string;
  startDate : timestamp;
  endDate : timestamp;
  isActive : bool;
  createdAt : timestamp }.
End Election.

Module Candidate.
Record t := mk {
  id : uuid;
  userId : uuid;
  electionId : uuid;
  positionId : uuid;
  manifesto : option string;
  isApproved : bool;
  createdAt : timestamp }.
End Candidate.

Module Vote.
Record t := mk {
  id : uuid;
  voterId : uuid;
  candidateId : uuid;
  electionId : uuid;
  positionId : uuid;
  createdAt : timestamp }.
End Vote.

(** [InsertVote]: the vote columns without [id] and [createdAt]. *)
Module InsertVote.
Record t := mk {
  voterId : uuid;
  candidateId : uuid;
  electionId : uuid;
  positionId : uuid }.
End InsertVote.

(** The database: one list of rows per table. *)
Record Db := mkDb {
  users : list User.t;
  clubs : list Club.t;
  positions : list Position.t;
  elections : list Election.t;
  candidates : list Candidate.t;
  votes : list Vote.t }.

Definition set_votes (db : Db) (vs : list Vote.t) : Db :=
  mkDb (users db) (clubs db) (positions db) (elections db) (candidates db) vs.

(** *** Constraints the schema declares

    Primary keys and the two [unique()] columns of [users] have no repeated
    value; every [references(...)] column points to an existing row. *)

Fixpoint distinctb (l : list string) : bool :=
  match l with
  | [] => true
  | x :: t => negb (existsb (String.eqb x) t) && distinctb t
  end.

Definition has_key (k : uuid) (keys : list uuid) : bool :=
  existsb (String.eqb k) keys.

Definition primary_keys_ok (db : Db) : bool :=
  distinctb (map User.id (users db)) &&
  distinctb (map Club.id (clubs db)) &&
  distinctb (map Position.id (positions db)) &&
  distinctb (map Election.id (elections db)) &&
  distinctb (map Candidate.id (candidates db)) &&
  distinctb (map Vote.id (votes db)).

Definition unique_columns_ok (db : Db) : bool :=
  distinctb (map User.username (users db)) &&
  distinctb (map User.email (users db)).

Definition vote_refs_ok (db : Db) (v : Vote.t) : bool :=
  has_key (Vote.voterId v) (map User.id (users db)) &&
  has_key (Vote.candidateId v) (map Candidate.id (candidates db)) &&
  has_key (Vote.electionId v) (map Election.id (elections db)) &&
  has_key (Vote.positionId v) (map Position.id (positions db)).

Definition candidate_refs_ok (db : Db) (c : Candidate.t) : bool :=
  has_key (Candidate.userId c) (map User.id (users db)) &&
  has_key (Candidate.electionId c) (map Election.id (elections db)) &&
  has_key (Candidate.positionId c) (map Position.id (positions db)).

Definition foreign_keys_ok (db : Db) : bool :=
  forallb (fun p => has_key (Position.clubId p) (map Club.id (clubs db)))
          (positions db) &&
  forallb (fun e => has_key (Election.clubId e) (map Club.id (clubs db)))
          (elections db) &&
  forallb (candidate_refs_ok db) (candidates db) &&
  forallb (vote_refs_ok db) (votes db).

Definition schema_ok (db : Db) : bool :=
  primary_keys_ok db && unique_columns_ok db && foreign_keys_ok db.

(** ** The storage monad: database state and thrown errors *)

Inductive outcome (A : Type) : Type :=
| Ok (a : A)
| Thrown (e : string).
Arguments Ok {A} a.
Arguments Thrown {A} e.

Definition M (A : Type) : Type := Db -> outcome A * Db.

Definition ret {A} (a : A) : M A := fun db => (Ok a, db).

Definition throw {A} (e : string) : M A := fun db => (Thrown e, db).

Definition bind {A B} (m : M A) (k : A -> M B) : M B :=
  fun db =>
    match m db with
    | (Ok a, db') => k a db'
    | (Thrown e, db') => (Thrown e, db')
    end.

(** A [select] statement reads the database and leaves it as it is. *)
Definition select {A} (q : Db -> A) : M A := fun db => (Ok (q db), db).

Notation "x <- m ;; k" := (bind m (fun x => k))
  (at level 61, m at next level, right associativity).

(** [try { body } catch (error) { handler }] of a route. *)
Definition try_catch {A} (body : M A) (handler : A) : Db -> A * Db :=
  fun db =>
    match body db with
    | (Ok a, db') => (a, db')
    | (Thrown _, db') => (handler, db')
    end.

(** ** Storage methods on votes ([DatabaseStorage]) *)

Definition vote_matches (userId electionId positionId : uuid) (v : Vote.t) : bool :=
  String.eqb (Vote.voterId v) userId &&
  String.eqb (Vote.electionId v) electionId &&
  String.eqb (Vote.positionId v) positionId.

(** [select count() from votes where voterId = .. and electionId = .. and
    positionId = ..], then [result.count > 0]. *)
Definition hasUserVoted_query (userId electionId positionId : uuid) (db : Db) : bool :=
  let count := List.length (filter (vote_matches userId electionId positionId) (votes db)) in
  Nat.ltb 0 count.

Definition hasUserVoted (userId electionId positionId : uuid) : M bool :=
  select (hasUserVoted_query userId electionId positionId).

(** Column defaults the database fills in on insert: [gen_random_uuid()] and
    [now()]. *)
Record Defaults := mkDefaults {
  gen_random_uuid : uuid;
  now : timestamp }.

Definition new_vote (d : Defaults) (iv : InsertVote.t) : Vote.t :=
  Vote.mk (gen_random_uuid d) (InsertVote.voterId iv) (InsertVote.candidateId iv)
          (InsertVote.electionId iv) (InsertVote.positionId iv) (now d).

(** [insert into votes values (..) returning *]: the row is appended when the
    primary key is fresh and the four references resolve; otherwise the
    statement throws and the table is unchanged. *)
Definition castVote (d : Defaults) (insertVote : InsertVote.t) : M Vote.t :=
  fun db =>
    let vote := new_vote d insertVote in
    if negb (has_key (Vote.id vote) (map Vote.id (votes db))) && vote_refs_ok db vote
    then (Ok vote, set_votes db (votes db ++ [vote]))
    else (Thrown "insert or update on table votes violates a constraint", db).

Definition getVoteCount_query (candidateId : uuid) (db : Db) : nat :=
  List.length (filter (fun v => String.eqb (Vote.candidateId v) candidateId) (votes db)).

Definition getVoteCount (candidateId : uuid) : M nat :=
  select (getVoteCount_query candidateId).

(** ** The voting endpoint ([POST /api/vote]) *)

Inductive Payload : Type :=
| Message (message : string)
| VoteJson (vote : Vote.t).

Record Response := mkResponse {
  status : nat;
  json : Payload }.

(** The request body as received: any of the fields may be absent. *)
Record VoteBody := mkVoteBody {
  body_voterId : option uuid;
  body_candidateId : option uuid;
  body_electionId : option uuid;
  body_positionId : option uuid }.

(** [insertVoteSchema.parse({ ...req.body, voterId: req.user.id })]: the
    session's user id overrides whatever the body carries; a missing field
    makes [parse] throw. *)
Definition parse_vote (body : VoteBody) (sessionUserId : uuid) : M InsertVote.t :=
  match body_candidateId body, body_electionId body, body_positionId body with
  | Some c, Some e, Some p => ret (InsertVote.mk sessionUserId c e p)
  | _, _, _ => throw "ZodError"
  end.

Definition post_vote (session : option User.t) (body : VoteBody) (d : Defaults)
  : Db -> Response * Db :=
  match session with
  | None => fun db => (mkResponse 401 (Message "Authentication required"), db)
  | Some user =>
      try_catch
        (voteData <- parse_vote body (User.id user) ;;
         hasVoted <- hasUserVoted (InsertVote.voterId voteData)
                                  (InsertVote.electionId voteData)
                                  (InsertVote.positionId voteData) ;;
         if hasVoted
         then ret (mkResponse 400 (Message "You have already voted for this position"))
         else
           vote <- castVote d voteData ;;
           ret (mkResponse 201 (VoteJson vote)))
        (mkResponse 500 (Message "Failed to submit vote"))
  end.

(** A submission as it reaches the server: who is logged in, what was sent,
    and the defaults the database will generate for it. *)
Record Submission := mkSubmission {
  sub_session : option User.t;
  sub_body : VoteBody;
  sub_defaults : Defaults }.

Definition submit (db : Db) (s : Submission) : Response * Db :=
  post_vote (sub_session s) (sub_body s) (sub_defaults s) db.

(** The database after a sequence of submissions, each handled to completion
    before the next one starts. *)
Definition submit_all (db : Db) (subs : list Submission) : Db :=
  fold_left (fun db s => snd (submit db s)) subs db.

(** *** The handler between its awaits

    The handler awaits the eligibility query and the insert one after the
    other.  A request is suspended at each [await], and the server may serve
    other requests in between. *)
Inductive Pending : Type :=
| AwaitHasUserVoted (voteData : InsertVote.t)
| AwaitCastVote (voteData : InsertVote.t)
| Responded (response : Response).

(** From the start of the handler to its first [await]. *)
Definition begin_vote (session : option User.t) (body : VoteBody) (db : Db) : Pending :=
  match session with
  | None => Responded (mkResponse 401 (Message "Authentication required"))
  | Some user =>
      match parse_vote body (User.id user) db with
      | (Ok voteData, _) => AwaitHasUserVoted voteData
      | (Thrown _, _) => Responded (mkResponse 500 (Message "Failed to submit vote"))
      end
  end.

(** From one [await] to the next, or to the response. *)
Definition resume_vote (d : Defaults) (p : Pending) (db : Db) : Pending * Db :=
  match p with
  | AwaitHasUserVoted voteData =>
      match hasUserVoted (InsertVote.voterId voteData) (InsertVote.electionId voteData)
                         (InsertVote.positionId voteData) db with
      | (Ok true, db') =>
          (Responded (mkResponse 400 (Message "You have already voted for this position")),
           db')
      | (Ok false, db') => (AwaitCastVote voteData, db')
      | (Thrown _, db') =>
          (Responded (mkResponse 500 (Message "Failed to submit vote")), db')
      end
  | AwaitCastVote voteData =>
      match castVote d voteData db with
      | (Ok vote, db') => (Responded (mkResponse 201 (VoteJson vote)), db')
      | (Thrown _, db') =>
          (Responded (mkResponse 500 (Message "Failed to submit vote")), db')
      end
  | Responded _ => (p, db)
  end.

(** Two requests in flight: both eligibility queries are answered before
    either insert runs. *)
Definition overlapped (s1 s2 : Submission) (db : Db) : Pending * Pending * Db :=
  let p1 := begin_vote (sub_session s1) (sub_body s1) db in
  let p2 := begin_vote (sub_session s2) (sub_body s2) db in
  let '(p1, db) := resume_vote (sub_defaults s1) p1 db in
  let '(p2, db) := resume_vote (sub_defaults s2) p2 db in
  let '(p1, db) := resume_vote (sub_defaults s1) p1 db in
  let '(p2, db) := resume_vote (sub_defaults s2) p2 db in
  (p1, p2, db).

(** ** Query building blocks

    Joins, [group by] and [order by] over lists of rows.  A query fixes the
    order of its rows only as far as its [order by] says: without one any
    order may come back, and rows that compare equal on the sort keys may
    come back in any order.  The functions below compute one of these
    answers (rows leave a join in the scan order of its left table, and
    [order by] is a stable insertion sort); statements about a query without
    [order by] are made up to the order of its rows, and [tally_answers]
    further down describes every answer of the tally query. *)

Definition innerJoin {A B} (l : list A) (r : list B) (on : A -> B -> bool)
  : list (A * B) :=
  flat_map (fun a => map (pair a) (filter (on a) r)) l.

Definition leftJoin {A B} (l : list A) (r : list B) (on : A -> B -> bool)
  : list (A * option B) :=
  flat_map (fun a =>
              match filter (on a) r with
              | [] => [(a, None)]
              | matched => map (fun b => (a, Some b)) matched
              end) l.

(** The rows a left join produces for one row of its left table. *)
Definition leftJoin_block {A B} (r : list B) (on : A -> B -> bool) (a : A)
  : (A * option B) * list (A * option B) :=
  match filter (on a) r with
  | [] => ((a, None), [])
  | b :: bs => ((a, Some b), map (fun b' => (a, Some b')) bs)
  end.

Section GroupBy.
Context {A : Type} (same_group : A -> A -> bool).

(** A group is its first row and the rows that follow it. *)
Definition members (g : A * list A) : list A := fst g :: snd g.

(** Groups in order of first occurrence. *)
Fixpoint groupBy (l : list A) : list (A * list A) :=
  match l with
  | [] => []
  | x :: t =>
      let gs := groupBy t in
      (x, flat_map members
                   (filter (fun g => same_group x (fst g)) gs))
        :: filter (fun g => negb (same_group x (fst g))) gs
  end.
End GroupBy.

Section OrderBy.
Context {A : Type} (leb : A -> A -> bool).

Fixpoint insert_row (x : A) (l : list A) : list A :=
  match l with
  | [] => [x]
  | y :: t => if leb x y then x :: y :: t else y :: insert_row x t
  end.

Fixpoint orderBy (l : list A) : list A :=
  match l with
  | [] => []
  | x :: t => insert_row x (orderBy t)
  end.
End OrderBy.

Fixpoint mapM {A B} (f : A -> M B) (l : list A) : M (list B) :=
  match l with
  | [] => ret []
  | x :: t => y <- f x ;; ys <- mapM f t ;; ret (y :: ys)
  end.

Fixpoint foldM {A S} (f : S -> A -> M S) (l : list A) (s : S) : M S :=
  match l with
  | [] => ret s
  | x :: t => s' <- f s x ;; foldM f t s'
  end.

(** ** Storage methods on elections, positions and candidates *)

Definition getPositionsByClub_query (clubId : uuid) (db : Db) : list Position.t :=
  filter (fun p => String.eqb (Position.clubId p) clubId) (positions db).

Definition getPositionsByClub (clubId : uuid) : M (list Position.t) :=
  select (getPositionsByClub_query clubId).

(** [where isActive = true and endDate > now()]. *)
Definition election_is_live (now : timestamp) (e : Election.t) : bool :=
  Bool.eqb (Election.isActive e) true && Z.ltb now (Election.endDate e).

Definition activeElections_query (now : timestamp) (db : Db)
  : list (Election.t * Club.t) :=
  orderBy (fun a b => Z.leb (Election.endDate (fst a)) (Election.endDate (fst b)))
    (filter (fun ec => election_is_live now (fst ec))
       (innerJoin (elections db) (clubs db)
                  (fun e c => String.eqb (Election.clubId e) (Club.id c)))).

(** [{ ...election, club, positions }]. *)
Module ActiveElection.
Record t := mk {
  election : Election.t;
  club : Club.t;
  positions : list Position.t }.
End ActiveElection.

Definition getActiveElections (now : timestamp) : M (list ActiveElection.t) :=
  activeElections <- select (activeElections_query now) ;;
  mapM (fun ec =>
          electionPositions <- getPositionsByClub (Club.id (snd ec)) ;;
          ret (ActiveElection.mk (fst ec) (snd ec) electionPositions))
       activeElections.

(** [{ ...candidate, user, position }]. *)
Module CandidateWithUser.
Record t := mk {
  candidate : Candidate.t;
  user : User.t;
  position : Position.t }.
End CandidateWithUser.

Definition candidate_user_position (db : Db)
  : list (Candidate.t * User.t * Position.t) :=
  innerJoin
    (innerJoin (candidates db) (users db)
               (fun c u => String.eqb (Candidate.userId c) (User.id u)))
    (positions db)
    (fun cu p => String.eqb (Candidate.positionId (fst cu)) (Position.id p)).

(** [where candidates.electionId = .. and candidates.isApproved = true]. *)
Definition on_roster (electionId : uuid) (c : Candidate.t) : bool :=
  String.eqb (Candidate.electionId c) electionId &&
  Bool.eqb (Candidate.isApproved c) true.

Definition getCandidatesByElection_query (electionId : uuid) (db : Db)
  : list CandidateWithUser.t :=
  map (fun row => CandidateWithUser.mk (fst (fst row)) (snd (fst row)) (snd row))
    (filter (fun row => on_roster electionId (fst (fst row)))
       (candidate_user_position db)).

Definition getCandidatesByElection (electionId : uuid)
  : M (list CandidateWithUser.t) :=
  select (getCandidatesByElection_query electionId).

(** ** The tally ([getElectionResults]) *)

(** One output row: [{ candidate, user, position, voteCount }]. *)
Module Result.
Record t := mk {
  candidate : Candidate.t;
  user : User.t;
  position : Position.t;
  voteCount : nat }.
End Result.

Abbreviation TallyRow := (Candidate.t * User.t * Position.t * option Vote.t)%type.

(** [where candidates.electionId = ..]. *)
Definition in_election (electionId : uuid) (cup : Candidate.t * User.t * Position.t)
  : bool :=
  String.eqb (Candidate.electionId (fst (fst cup))) electionId.

(** [on votes.candidateId = candidates.id]. *)
Definition names_candidate (cup : Candidate.t * User.t * Position.t) (v : Vote.t)
  : bool :=
  String.eqb (Vote.candidateId v) (Candidate.id (fst (fst cup))).

Definition tally_rows (electionId : uuid) (db : Db) : list TallyRow :=
  filter (fun row => in_election electionId (fst row))
    (leftJoin (candidate_user_position db) (votes db) names_candidate).

(** [group by candidates.id, users.id, positions.id]. *)
Definition same_tally_group (a b : TallyRow) : bool :=
  String.eqb (Candidate.id (fst (fst (fst a)))) (Candidate.id (fst (fst (fst b)))) &&
  String.eqb (User.id (snd (fst (fst a)))) (User.id (snd (fst (fst b)))) &&
  String.eqb (Position.id (snd (fst a))) (Position.id (snd (fst b))).

Definition has_vote (row : TallyRow) : bool :=
  match snd row with
  | Some _ => true
  | None => false
  end.

(** [count(votes.id)] counts the rows of the group whose vote is not null. *)
Definition tally_select (g : TallyRow * list TallyRow) : Result.t :=
  let first := fst g in
  Result.mk (fst (fst (fst first))) (snd (fst (fst first))) (snd (fst first))
            (List.length (filter has_vote (members g))).

(** [order by positions.name, count(votes.id) desc]; names compare as
    [String.compare] does. *)
Definition tally_order (a b : Result.t) : bool :=
  match String.compare (Position.name (Result.position a))
                       (Position.name (Result.position b)) with
  | Lt => true
  | Eq => Nat.leb (Result.voteCount b) (Result.voteCount a)
  | Gt => false
  end.

Definition getElectionResults_query (electionId : uuid) (db : Db) : list Result.t :=
  orderBy tally_order
    (map tally_select (groupBy same_tally_group (tally_rows electionId db))).

Definition getElectionResults (electionId : uuid) : M (list Result.t) :=
  select (getElectionResults_query electionId).

(** ** The listing routes *)

Inductive Reply (A : Type) : Type :=
| Sent (body : A)
| Failed (status : nat) (message : string).
Arguments Sent {A} body.
Arguments Failed {A} status message.

(** A JavaScript object with string keys: assigning to a key that is present
    replaces its value in place, assigning to a new key adds it at the end. *)
Definition JsObject (V : Type) : Type := list (string * V).

Fixpoint obj_set {V} (o : JsObject V) (k : string) (v : V) : JsObject V :=
  match o with
  | [] => [(k, v)]
  | (k', v') :: o' =>
      if String.eqb k' k then (k', v) :: o' else (k', v') :: obj_set o' k v
  end.

Definition obj_values {V} (o : JsObject V) : list V := map snd o.

(** [{ ...election, userVotes }]; [userVotes] is optional in the client's
    type. *)
Module ElectionWithVotes.
Record t := mk {
  election : Election.t;
  club : Club.t;
  positions : list Position.t;
  userVotes : option (JsObject bool) }.
End ElectionWithVotes.

Definition collect_userVotes (userId electionId : uuid) (ps : list Position.t)
  : M (JsObject bool) :=
  foldM (fun userVotes position =>
           hasVoted <- hasUserVoted userId electionId (Position.id position) ;;
           ret (obj_set userVotes (Position.id position) hasVoted))
        ps [].

Definition with_status (session : option User.t) (el : ActiveElection.t)
  : M ElectionWithVotes.t :=
  match session with
  | None =>
      ret (ElectionWithVotes.mk (ActiveElection.election el) (ActiveElection.club el)
                                (ActiveElection.positions el) (Some []))
  | Some user =>
      userVotes <- collect_userVotes (User.id user)
                     (Election.id (ActiveElection.election el))
                     (ActiveElection.positions el) ;;
      ret (ElectionWithVotes.mk (ActiveElection.election el) (ActiveElection.club el)
                                (ActiveElection.positions el) (Some userVotes))
  end.

(** [GET /api/elections/active]. *)
Definition get_elections_active (session : option User.t) (now : timestamp)
  : Db -> Reply (list ElectionWithVotes.t) * Db :=
  try_catch
    (activeElections <- getActiveElections now ;;
     electionsWithStatus <- mapM (with_status session) activeElections ;;
     ret (Sent electionsWithStatus))
    (Failed 500 "Failed to fetch active elections").

(** *** The id of a route

    [req.params.id] is any text of the URL.  The query compares it with a
    [uuid] column, so the database first reads it as a uuid: sixteen bytes of
    two hexadecimal digits each, in either case, a hyphen allowed after each
    pair of bytes but the last, the whole optionally in braces.  A text that
    is not written so makes the statement throw; one that is stands for the
    uuid in its usual lower-case form. *)

Definition hex_digit (c : ascii) : option ascii :=
  let n := nat_of_ascii c in
  if Nat.leb 48 n && Nat.leb n 57 then Some c
  else if Nat.leb 97 n && Nat.leb n 102 then Some c
  else if Nat.leb 65 n && Nat.leb n 70 then Some (ascii_of_nat (n + 32))
  else None.

(** Reads [count] bytes, the next one being byte number [i]; returns their
    digits and the text that is left. *)
Fixpoint uuid_bytes (count i : nat) (src : string) : option (list ascii * string) :=
  match count with
  | 0 => Some ([], src)
  | S count' =>
      match src with
      | String c1 (String c2 rest) =>
          match hex_digit c1, hex_digit c2 with
          | Some h1, Some h2 =>
              let rest' :=
                match rest with
                | String "-"%char after =>
                    if Nat.odd i && Nat.ltb i 15 then after else rest
                | _ => rest
                end in
              match uuid_bytes count' (S i) rest' with
              | Some (digits, tail) => Some (h1 :: h2 :: digits, tail)
              | None => None
              end
          | _, _ => None
          end
      | _ => None
      end
  end.

(** The usual form: 8-4-4-4-12 digits. *)
Definition uuid_text (digits : list ascii) : uuid :=
  string_of_list_ascii
    (firstn 8 digits ++ "-"%char :: firstn 4 (skipn 8 digits) ++
     "-"%char :: firstn 4 (skipn 12 digits) ++
     "-"%char :: firstn 4 (skipn 16 digits) ++
     "-"%char :: skipn 20 digits).

Definition parse_uuid (text : string) : option uuid :=
  let braces := match text with String "{"%char _ => true | _ => false end in
  let src := match text with String "{"%char after => after | _ => text end in
  match uuid_bytes 16 0 src with
  | Some (digits, tail) =>
      let tail' :=
        if braces
        then match tail with String "}"%char after => Some after | _ => None end
        else Some tail in
      match tail' with
      | Some EmptyString => Some (uuid_text digits)
      | _ => None
      end
  | None => None
  end.

Definition as_uuid (text : string) : M uuid :=
  match parse_uuid text with
  | Some id => ret id
  | None => throw "invalid input syntax for type uuid"
  end.

(** [GET /api/elections/:id/candidates]. *)
Definition get_election_candidates (id : string)
  : Db -> Reply (list CandidateWithUser.t) * Db :=
  try_catch
    (electionId <- as_uuid id ;;
     candidates <- getCandidatesByElection electionId ;;
     ret (Sent candidates))
    (Failed 500 "Failed to fetch candidates").

(** [GET /api/admin/elections/:id/results]. *)
Definition get_election_results (session : option User.t) (id : string)
  : Db -> Reply (list Result.t) * Db :=
  match session with
  | Some user =>
      if String.eqb (User.role user) "admin"
      then try_catch
             (electionId <- as_uuid id ;;
              results <- getElectionResults electionId ;;
              ret (Sent results))
             (Failed 500 "Failed to fetch election results")
      else fun db => (Failed 403 "Admin access required", db)
  | None => fun db => (Failed 403 "Admin access required", db)
  end.

(** ** The status badge of the home page ([getUserVotingStatus]) *)

Definition getUserVotingStatus (election : ElectionWithVotes.t) : string :=
  match ElectionWithVotes.userVotes election with
  | None => "Not Voted"
  | Some userVotes =>
      let totalPositions := List.length (ElectionWithVotes.positions election) in
      let votedPositions :=
        List.length (filter (fun voted : bool => voted) (obj_values userVotes)) in
      if Nat.eqb votedPositions totalPositions then "Completed"
      else if Nat.ltb 0 votedPositions then "Partial"
      else "Not Voted"
  end.

(** ** The other storage methods

    Rows to insert: the columns of a table without [id] and [createdAt];
    a column with a default, or one that may be null, is optional. *)

Module InsertUser.
Record t := mk {
  username : string;
  email : string;
  password : string;
  firstName : string;
  lastName : string;
  role : option string;
  isVerified : option bool }.
End InsertUser.

Module InsertClub.
Record t := mk {
  name : string;
  description : option string;
  icon : option string }.
End InsertClub.

Module InsertPosition.
Record t := mk {
  name : string;
  clubId : uuid;
  description : option string }.
End InsertPosition.

Module InsertElection.
Record t := mk {
  clubId : uuid;
  title : string;
  description : option string;
  startDate : timestamp;
  endDate : timestamp;
  isActive : option bool }.
End InsertElection.

Module InsertCandidate.
Record t := mk {
  userId : uuid;
  electionId : uuid;
  positionId : uuid;
  manifesto : option string;
  isApproved : option bool }.
End InsertCandidate.

Definition set_users (db : Db) (us : list User.t) : Db :=
  mkDb us (clubs db) (positions db) (elections db) (candidates db) (votes db).

Definition set_clubs (db : Db) (cs : list Club.t) : Db :=
  mkDb (users db) cs (positions db) (elections db) (candidates db) (votes db).

Definition set_positions (db : Db) (ps : list Position.t) : Db :=
  mkDb (users db) (clubs db) ps (elections db) (candidates db) (votes db).

Definition set_elections (db : Db) (es : list Election.t) : Db :=
  mkDb (users db) (clubs db) (positions db) es (candidates db) (votes db).

Definition set_candidates (db : Db) (cs : list Candidate.t) : Db :=
  mkDb (users db) (clubs db) (positions db) (elections db) cs (votes db).

(** [column.default(value)]: the value given, or the default. *)
Definition or_default {A} (given : option A) (default : A) : A :=
  match given with
  | Some a => a
  | None => default
  end.

(** [const [row] = await db.select()...; return row || undefined]. *)
Definition first_row {A} (rows : list A) : option A :=
  match rows with
  | [] => None
  | row :: _ => Some row
  end.

Definition getUser_query (id : uuid) (db : Db) : option User.t :=
  first_row (filter (fun u => String.eqb (User.id u) id) (users db)).

Definition getUser (id : uuid) : M (option User.t) := select (getUser_query id).

Definition getUserByUsername_query (username : string) (db : Db) : option User.t :=
  first_row (filter (fun u => String.eqb (User.username u) username) (users db)).

Definition getUserByUsername (username : string) : M (option User.t) :=
  select (getUserByUsername_query username).

Definition getUserByEmail_query (email : string) (db : Db) : option User.t :=
  first_row (filter (fun u => String.eqb (User.email u) email) (users db)).

Definition getUserByEmail (email : string) : M (option User.t) :=
  select (getUserByEmail_query email).

Definition new_user (d : Defaults) (iu : InsertUser.t) : User.t :=
  User.mk (gen_random_uuid d) (InsertUser.username iu) (InsertUser.email iu)
          (InsertUser.password iu) (InsertUser.firstName iu) (InsertUser.lastName iu)
          (or_default (InsertUser.role iu) "student")
          (or_default (InsertUser.isVerified iu) false) (now d).

(** [insert into users]: the primary key, the user name and the e-mail address
    must be new. *)
Definition createUser (d : Defaults) (insertUser : InsertUser.t) : M User.t :=
  fun db =>
    let user := new_user d insertUser in
    if negb (has_key (User.id user) (map User.id (users db))) &&
       negb (has_key (User.username user) (map User.username (users db))) &&
       negb (has_key (User.email user) (map User.email (users db)))
    then (Ok user, set_users db (users db ++ [user]))
    else (Thrown "insert on table users violates a constraint", db).

(** [select * from clubs order by name]; names compare as [String.leb]
    does. *)
Definition getClubs_query (db : Db) : list Club.t :=
  orderBy (fun a b => String.leb (Club.name a) (Club.name b)) (clubs db).

Definition getClubs : M (list Club.t) := select getClubs_query.

Definition getClub_query (id : uuid) (db : Db) : option Club.t :=
  first_row (filter (fun c => String.eqb (Club.id c) id) (clubs db)).

Definition getClub (id : uuid) : M (option Club.t) := select (getClub_query id).

Definition new_club (d : Defaults) (ic : InsertClub.t) : Club.t :=
  Club.mk (gen_random_uuid d) (InsertClub.name ic) (InsertClub.description ic)
          (or_default (InsertClub.icon ic) "fas fa-users") (now d).

Definition createClub (d : Defaults) (insertClub : InsertClub.t) : M Club.t :=
  fun db =>
    let club := new_club d insertClub in
    if negb (has_key (Club.id club) (map Club.id (clubs db)))
    then (Ok club, set_clubs db (clubs db ++ [club]))
    else (Thrown "insert on table clubs violates a constraint", db).

Definition new_position (d : Defaults) (ip : InsertPosition.t) : Position.t :=
  Position.mk (gen_random_uuid d) (InsertPosition.name ip) (InsertPosition.clubId ip)
              (InsertPosition.description ip) (now d).

Definition createPosition (d : Defaults) (insertPosition : InsertPosition.t)
  : M Position.t :=
  fun db =>
    let position := new_position d insertPosition in
    if negb (has_key (Position.id position) (map Position.id (positions db))) &&
       has_key (Position.clubId position) (map Club.id (clubs db))
    then (Ok position, set_positions db (positions db ++ [position]))
    else (Thrown "insert on table positions violates a constraint", db).

Definition getElection_query (id : uuid) (db : Db) : option Election.t :=
  first_row (filter (fun e => String.eqb (Election.id e) id) (elections db)).

Definition getElection (id : uuid) : M (option Election.t) :=
  select (getElection_query id).

Definition new_election (d : Defaults) (ie : InsertElection.t) : Election.t :=
  Election.mk (gen_random_uuid d) (InsertElection.clubId ie) (InsertElection.title ie)
              (InsertElection.description ie) (InsertElection.startDate ie)
              (InsertElection.endDate ie)
              (or_default (InsertElection.isActive ie) true) (now d).

Definition createElection (d : Defaults) (insertElection : InsertElection.t)
  : M Election.t :=
  fun db =>
    let election := new_election d insertElection in
    if negb (has_key (Election.id election) (map Election.id (elections db))) &&
       has_key (Election.clubId election) (map Club.id (clubs db))
    then (Ok election, set_elections db (elections db ++ [election]))
    else (Thrown "insert on table elections violates a constraint", db).

Definition new_candidate (d : Defaults) (ic : InsertCandidate.t) : Candidate.t :=
  Candidate.mk (gen_random_uuid d) (InsertCandidate.userId ic)
               (InsertCandidate.electionId ic) (InsertCandidate.positionId ic)
               (InsertCandidate.manifesto ic)
               (or_default (InsertCandidate.isApproved ic) false) (now d).

Definition createCandidate (d : Defaults) (insertCandidate : InsertCandidate.t)
  : M Candidate.t :=
  fun db =>
    let candidate := new_candidate d insertCandidate in
    if negb (has_key (Candidate.id candidate) (map Candidate.id (candidates db))) &&
       candidate_refs_ok db candidate
    then (Ok candidate, set_candidates db (candidates db ++ [candidate]))
    else (Thrown "insert on table candidates violates a constraint", db).

(** [{ totalVotes, totalUsers, activeElections, totalCandidates }]. *)
Module AdminStats.
Record t := mk {
  totalVotes : nat;
  totalUsers : nat;
  activeElections : nat;
  totalCandidates : nat }.
End AdminStats.

Definition getAdminStats_query (now : timestamp) (db : Db) : AdminStats.t :=
  let totalVotes := List.length (votes db) in
  let totalUsers := List.length (users db) in
  let activeElections :=
    List.length (filter (election_is_live now) (elections db)) in
  let totalCandidates := List.length (candidates db) in
  AdminStats.mk totalVotes totalUsers activeElections totalCandidates.

Definition getAdminStats (now : timestamp) : M AdminStats.t :=
  select (getAdminStats_query now).

(** ** The admin routes and the club list *)

Inductive Json : Type :=
| JMessage (message : string)
| JStats (stats : AdminStats.t)
| JClub (club : Club.t)
| JClubs (clubs : list Club.t)
| JPosition (position : Position.t)
| JElection (election : Election.t).

Record HttpResponse := mkHttp {
  http_status : nat;
  http_json : Json }.

(** [!req.isAuthenticated() || req.user!.role !== "admin"]. *)
Definition not_admin (session : option User.t) : bool :=
  match session with
  | None => true
  | Some user => negb (String.eqb (User.role user) "admin")
  end.

Definition admin_required : HttpResponse :=
  mkHttp 403 (JMessage "Admin access required").

(** [schema.parse(req.body)] either yields the row to insert or throws; the
    routes below take its outcome: [None] when it throws. *)
Definition parsed {A} (outcome_of_parse : option A) : M A :=
  match outcome_of_parse with
  | Some row => ret row
  | None => throw "ZodError"
  end.

(** [GET /api/admin/stats]. *)
Definition get_admin_stats (session : option User.t) (now : timestamp)
  : Db -> HttpResponse * Db :=
  if not_admin session then fun db => (admin_required, db)
  else try_catch
         (stats <- getAdminStats now ;; ret (mkHttp 200 (JStats stats)))
         (mkHttp 500 (JMessage "Failed to fetch admin stats")).

(** [POST /api/admin/clubs]. *)
Definition post_admin_clubs (session : option User.t) (body : option InsertClub.t)
           (d : Defaults) : Db -> HttpResponse * Db :=
  if not_admin session then fun db => (admin_required, db)
  else try_catch
         (clubData <- parsed body ;;
          club <- createClub d clubData ;;
          ret (mkHttp 201 (JClub club)))
         (mkHttp 500 (JMessage "Failed to create club")).

(** [POST /api/admin/positions]. *)
Definition post_admin_positions (session : option User.t)
           (body : option InsertPosition.t) (d : Defaults)
  : Db -> HttpResponse * Db :=
  if not_admin session then fun db => (admin_required, db)
  else try_catch
         (positionData <- parsed body ;;
          position <- createPosition d positionData ;;
          ret (mkHttp 201 (JPosition position)))
         (mkHttp 500 (JMessage "Failed to create position")).

(** [POST /api/admin/elections]. *)
Definition post_admin_elections (session : option User.t)
           (body : option InsertElection.t) (d : Defaults)
  : Db -> HttpResponse * Db :=
  if not_admin session then fun db => (admin_required, db)
  else try_catch
         (electionData <- parsed body ;;
          election <- createElection d electionData ;;
          ret (mkHttp 201 (JElection election)))
         (mkHttp 500 (JMessage "Failed to create election")).

(** [GET /api/clubs]. *)
Definition get_clubs : Db -> HttpResponse * Db :=
  try_catch
    (clubs <- getClubs ;; ret (mkHttp 200 (JClubs clubs)))
    (mkHttp 500 (JMessage "Failed to fetch clubs")).

(** ** The voting dialog of the home page ([handleVoteSubmission]) *)

(** [o[k]] for a key the object may or may not have. *)
Fixpoint obj_get {V} (o : JsObject V) (k : string) : option V :=
  match o with
  | [] => None
  | (k', v) :: o' => if String.eqb k' k then Some v else obj_get o' k
  end.

(** What the handler does, in order: show a toast, or start a mutation that
    posts [voteData] to [/api/vote]. *)
Inductive ClientAction : Type :=
| Toast (title description : string)
| Mutate (candidateId electionId positionId : uuid).

(** [candidates.reduce((acc, candidate) => { if (!acc.includes(id))
    acc.push(id); return acc }, [])]. *)
Definition roster_positions (candidates : list CandidateWithUser.t) : list uuid :=
  fold_left
    (fun acc candidate =>
       let id := Position.id (CandidateWithUser.position candidate) in
       if negb (existsb (String.eqb id) acc) then acc ++ [id] else acc)
    candidates [].

(** [vote => vote.candidateId]: a string that is present and not empty. *)
Definition truthy (candidateId : option string) : bool :=
  match candidateId with
  | Some s => negb (String.eqb s "")
  | None => false
  end.

Definition handleVoteSubmission (selectedElection : option ElectionWithVotes.t)
           (candidates : option (list CandidateWithUser.t))
           (selectedCandidates : JsObject string) : list ClientAction :=
  match selectedElection, candidates with
  | Some election, Some roster =>
      let positions := roster_positions roster in
      let votes :=
        filter (fun vote => truthy (fst vote))
               (map (fun positionId => (obj_get selectedCandidates positionId, positionId))
                    positions) in
      if negb (Nat.eqb (List.length votes) (List.length positions))
      then [Toast "Incomplete voting" "Please select a candidate for each position."]
      else
        map (fun vote =>
               Mutate (or_default (fst vote) "")
                      (Election.id (ElectionWithVotes.election election)) (snd vote))
            votes
  | _, _ => []
  end.

(** ** A small campus used in the examples

    One club with the positions President and Secretary, a second club without
    positions, four elections and six candidates. *)
Module Campus.
Local Open Scope Z_scope.

(** Identifiers. *)
Definition u_alice : uuid := "00000000-0000-4000-8000-00000000a001".
Definition u_bob : uuid := "00000000-0000-4000-8000-00000000a002".
Definition u_carol : uuid := "00000000-0000-4000-8000-00000000a003".
Definition u_dave : uuid := "00000000-0000-4000-8000-00000000a004".
Definition u_erin : uuid := "00000000-0000-4000-8000-00000000a005".
Definition k_tech : uuid := "00000000-0000-4000-8000-00000000b001".
Definition k_chess : uuid := "00000000-0000-4000-8000-00000000b002".
Definition p_president : uuid := "00000000-0000-4000-8000-00000000c001".
Definition p_secretary : uuid := "00000000-0000-4000-8000-00000000c002".
Definition e_spring : uuid := "00000000-0000-4000-8000-00000000d001".
Definition e_winter : uuid := "00000000-0000-4000-8000-00000000d002".
Definition e_paused : uuid := "00000000-0000-4000-8000-00000000d003".
Definition e_blitz : uuid := "00000000-0000-4000-8000-00000000d004".
Definition c_alice : uuid := "00000000-0000-4000-8000-00000000e001".
Definition c_bob : uuid := "00000000-0000-4000-8000-00000000e002".
Definition c_carol : uuid := "00000000-0000-4000-8000-00000000e003".
Definition c_dave : uuid := "00000000-0000-4000-8000-00000000e004".
Definition c_erin_winter : uuid := "00000000-0000-4000-8000-00000000e005".
Definition c_erin_paused : uuid := "00000000-0000-4000-8000-00000000e006".
Definition c_nobody : uuid := "00000000-0000-4000-8000-00000000e0ff".
Definition v_1 : uuid := "00000000-0000-4000-8000-00000000f001".
Definition v_2 : uuid := "00000000-0000-4000-8000-00000000f002".
Definition v_3 : uuid := "00000000-0000-4000-8000-00000000f003".
Definition v_9 : uuid := "00000000-0000-4000-8000-00000000f009".

Definition student (id name : string) (t : timestamp) : User.t :=
  User.mk id name (String.append name "@college.edu") "hash" name "Student" "student" true t.

Definition alice := student u_alice "alice" 1.
Definition bob := student u_bob "bob" 2.
Definition carol := student u_carol "carol" 3.
Definition dave := student u_dave "dave" 4.
Definition erin := student u_erin "erin" 5.

Definition tech := Club.mk k_tech "Technical Club" None "fas fa-code" 1.
Definition chess := Club.mk k_chess "Chess Club" None "fas fa-users" 1.

Definition president := Position.mk p_president "President" k_tech None 2.
Definition secretary := Position.mk p_secretary "Secretary" k_tech None 2.

(** Open from 100 to 200. *)
Definition spring := Election.mk e_spring k_tech "Spring" None 100 200 true 5.
(** Over since 50. *)
Definition winter := Election.mk e_winter k_tech "Winter" None 10 50 true 5.
(** Switched off. *)
Definition paused := Election.mk e_paused k_tech "Paused" None 100 200 false 5.
(** Of the club without positions. *)
Definition blitz := Election.mk e_blitz k_chess "Blitz" None 100 200 true 5.

Definition cand_alice :=
  Candidate.mk c_alice u_alice e_spring p_president None true 10.
Definition cand_bob :=
  Candidate.mk c_bob u_bob e_spring p_president None true 20.
Definition cand_carol :=
  Candidate.mk c_carol u_carol e_spring p_president None true 30.
Definition cand_dave :=
  Candidate.mk c_dave u_dave e_spring p_secretary None false 40.
Definition cand_erin_winter :=
  Candidate.mk c_erin_winter u_erin e_winter p_president None true 8.
Definition cand_erin_paused :=
  Candidate.mk c_erin_paused u_erin e_paused p_president None true 9.

Definition db0 : Db :=
  mkDb [alice; bob; carol; dave; erin]
       [tech; chess]
       [president; secretary]
       [spring; winter; paused; blitz]
       [cand_alice; cand_bob; cand_carol; cand_dave; cand_erin_winter;
        cand_erin_paused]
       [].

Definition ballot (id voter candidate position : string) (t : timestamp) : Vote.t :=
  Vote.mk id voter candidate e_spring position t.

(** One ballot for Bob, one for Carol, one for the unapproved Dave. *)
Definition db_voted : Db :=
  set_votes db0
    [ ballot v_1 u_dave c_bob p_president 110;
      ballot v_2 u_erin c_carol p_president 120;
      ballot v_3 u_erin c_dave p_secretary 130 ].

Definition body (candidate election position : string) : VoteBody :=
  mkVoteBody None (Some candidate) (Some election) (Some position).
End Campus.

(** ** Notions used in the statements *)

Definition ballot_key (v : Vote.t) : uuid * uuid * uuid :=
  (Vote.voterId v, Vote.electionId v, Vote.positionId v).

(** No two rows of [votes] carry the same (voter, election, position). *)
Definition ballots_unique (db : Db) : Prop :=
  NoDup (map ballot_key (votes db)).

(** [below leb a b]: [a] may stand before [b] in the order [leb]. *)
Definition below {A} (leb : A -> A -> bool) (a b : A) : Prop := leb a b = true.

(** The output row of one candidate: the candidate with its user and
    position, and the number of votes that name the candidate. *)
Definition tally_of (db : Db) (cup : Candidate.t * User.t * Position.t) : Result.t :=
  Result.mk (fst (fst cup)) (snd (fst cup)) (snd cup)
            (getVoteCount_query (Candidate.id (fst (fst cup))) db).

(** What the listing route answers for one live election and a logged-in
    user. *)
Definition listed_for (user : User.t) (db : Db) (ec : Election.t * Club.t)
  : ElectionWithVotes.t :=
  let ps := getPositionsByClub_query (Club.id (snd ec)) db in
  ElectionWithVotes.mk (fst ec) (snd ec) ps
    (Some (map (fun p => (Position.id p,
                          hasUserVoted_query (User.id user) (Election.id (fst ec))
                                             (Position.id p) db)) ps)).

(** The voter's badges, election by election. *)
Definition badges (user : User.t) (now : timestamp) (db : Db) : list (uuid * string) :=
  match fst (get_elections_active (Some user) now db) with
  | Sent listed =>
      map (fun ew => (Election.id (ElectionWithVotes.election ew),
                      getUserVotingStatus ew)) listed
  | Failed _ _ => []
  end.

(** Alice votes for Bob, tries again for Carol at the same position, then
    votes for Dave as Secretary. *)
Definition alice_three_submissions : list Submission :=
  [ mkSubmission (Some Campus.alice)
                 (Campus.body Campus.c_bob Campus.e_spring Campus.p_president)
                 (mkDefaults Campus.v_1 110);
    mkSubmission (Some Campus.alice)
                 (Campus.body Campus.c_carol Campus.e_spring Campus.p_president)
                 (mkDefaults Campus.v_2 120);
    mkSubmission (Some Campus.alice)
                 (Campus.body Campus.c_dave Campus.e_spring Campus.p_secretary)
                 (mkDefaults Campus.v_3 130) ].

(** 1 when the submission is answered 201 and names [candidateId], else 0. *)
Definition counted_for (session : option User.t) (body : VoteBody) (d : Defaults)
           (db : Db) (candidateId : uuid) : nat :=
  if Nat.eqb (status (fst (post_vote session body d db))) 201
  then match body_candidateId body with
       | Some c => if String.eqb c candidateId then 1 else 0
       | None => 0
       end
  else 0.

(** An administrator. *)
Module Office.
Definition registrar : User.t :=
  User.mk "00000000-0000-4000-8000-00000000a0ff" "registrar" "registrar@college.edu"
          "hash" "Rita" "Registrar" "admin" true 1.
End Office.

(** The answers the tally query allows: the grouped rows, each once, in an
    order that respects [order by positions.name, count(votes.id) desc]. *)
Definition tally_answers (electionId : uuid) (db : Db) (out : list Result.t) : Prop :=
  Permutation out
    (map tally_select (groupBy same_tally_group (tally_rows electionId db))) /\
  StronglySorted (below tally_order) out.

(** ** An election whose candidates all have one vote

    Ann, Ben, Cal, Dee and Eve stand for Chair and each has one vote.  Ids,
    users, rows and ballots come in the order Ann, Ben, Cal, Dee, Eve; the
    candidacies were registered the other way round, Eve's first
    ([createdAt] 10) and Ann's last ([createdAt] 50). *)
Module Tie.
Local Open Scope Z_scope.

Definition u_ann : uuid := "10000000-0000-4000-8000-00000000a001".
Definition u_ben : uuid := "10000000-0000-4000-8000-00000000a002".
Definition u_cal : uuid := "10000000-0000-4000-8000-00000000a003".
Definition u_dee : uuid := "10000000-0000-4000-8000-00000000a004".
Definition u_eve : uuid := "10000000-0000-4000-8000-00000000a005".
Definition k_debate : uuid := "10000000-0000-4000-8000-00000000b001".
Definition p_chair : uuid := "10000000-0000-4000-8000-00000000c001".
Definition e_autumn : uuid := "10000000-0000-4000-8000-00000000d001".
Definition c_ann : uuid := "10000000-0000-4000-8000-00000000e001".
Definition c_ben : uuid := "10000000-0000-4000-8000-00000000e002".
Definition c_cal : uuid := "10000000-0000-4000-8000-00000000e003".
Definition c_dee : uuid := "10000000-0000-4000-8000-00000000e004".
Definition c_eve : uuid := "10000000-0000-4000-8000-00000000e005".
Definition v_1 : uuid := "10000000-0000-4000-8000-00000000f001".
Definition v_2 : uuid := "10000000-0000-4000-8000-00000000f002".
Definition v_3 : uuid := "10000000-0000-4000-8000-00000000f003".
Definition v_4 : uuid := "10000000-0000-4000-8000-00000000f004".
Definition v_5 : uuid := "10000000-0000-4000-8000-00000000f005".

Definition ann := Campus.student u_ann "ann" 1.
Definition ben := Campus.student u_ben "ben" 2.
Definition cal := Campus.student u_cal "cal" 3.
Definition dee := Campus.student u_dee "dee" 4.
Definition eve := Campus.student u_eve "eve" 5.

Definition debate := Club.mk k_debate "Debate Club" None "fas fa-users" 6.
Definition chair := Position.mk p_chair "Chair" k_debate None 7.
Definition autumn := Election.mk e_autumn k_debate "Autumn" None 100 200 true 8.

Definition cand_ann := Candidate.mk c_ann u_ann e_autumn p_chair None true 50.
Definition cand_ben := Candidate.mk c_ben u_ben e_autumn p_chair None true 40.
Definition cand_cal := Candidate.mk c_cal u_cal e_autumn p_chair None true 30.
Definition cand_dee := Candidate.mk c_dee u_dee e_autumn p_chair None true 20.
Definition cand_eve := Candidate.mk c_eve u_eve e_autumn p_chair None true 10.

(** Each of the five votes for their own candidacy. *)
Definition ballot (id voter candidate : string) (t : timestamp) : Vote.t :=
  Vote.mk id voter candidate e_autumn p_chair t.

Definition db : Db :=
  mkDb [ann; ben; cal; dee; eve] [debate] [chair] [autumn]
       [cand_ann; cand_ben; cand_cal; cand_dee; cand_eve]
       [ ballot v_1 u_ann c_ann 110; ballot v_2 u_ben c_ben 120;
         ballot v_3 u_cal c_cal 130; ballot v_4 u_dee c_dee 140;
         ballot v_5 u_eve c_eve 150 ].

(** The five rows of the tally, Ann's first. *)
Definition tally : list Result.t :=
  [ Result.mk cand_ann ann chair 1; Result.mk cand_ben ben chair 1;
    Result.mk cand_cal cal chair 1; Result.mk cand_dee dee chair 1;
    Result.mk cand_eve eve chair 1 ].
End Tie.

(** * Properties *)

(** ** Keys and lists *)

Lemma has_key_In (k : uuid) (keys : list uuid) :
  has_key k keys = true <-> In k keys.
Proof.
  unfold has_key. rewrite existsb_exists. split.
  - intros [x [Hin Heq]]. apply String.eqb_eq in Heq. now subst.
  - intros Hin. exists k. split; [assumption | apply String.eqb_refl].
Qed.

Lemma has_key_false (k : uuid) (keys : list uuid) :
  has_key k keys = false <-> ~ In k keys.
Proof.
  rewrite <- has_key_In. destruct (has_key k keys); split; congruence.
Qed.

Lemma distinctb_NoDup (l : list string) :
  distinctb l = true <-> NoDup l.
Proof.
  induction l as [| x t IH]; simpl.
  - split; [constructor | reflexivity].
  - rewrite andb_true_iff, negb_true_iff, IH.
    change (existsb (String.eqb x) t) with (has_key x t).
    rewrite has_key_false. split.
    + intros [Hx Ht]. now constructor.
    + intros H. inversion H; subst. now split.
Qed.

Lemma NoDup_snoc {A} (l : list A) (x : A) :
  NoDup l -> ~ In x l -> NoDup (l ++ [x]).
Proof.
  induction l as [| y t IH]; simpl; intros Hnd Hx.
  - constructor; [intros [] | constructor].
  - inversion Hnd; subst. constructor.
    + rewrite in_app_iff. simpl. intros [Hy | [Hy | []]]; [tauto | subst; tauto].
    + apply IH; tauto.
Qed.

Lemma NoDup_map_eq {A B} (f : A -> B) (l : list A) (a b : A) :
  NoDup (map f l) -> In a l -> In b l -> f a = f b -> a = b.
Proof.
  induction l as [| x t IH]; simpl; intros Hnd Ha Hb Hf; [contradiction |].
  inversion Hnd as [| ? ? Hx Ht]; subst.
  destruct Ha as [Ha | Ha], Hb as [Hb | Hb]; subst.
  - reflexivity.
  - exfalso. apply Hx. rewrite Hf. now apply in_map.
  - exfalso. apply Hx. rewrite <- Hf. now apply in_map.
  - now apply IH.
Qed.

Lemma filter_nil_iff {A} (f : A -> bool) (l : list A) :
  filter f l = [] <-> forall x, In x l -> f x = false.
Proof.
  induction l as [| y t IH]; simpl.
  - split; [intros _ x [] | reflexivity].
  - destruct (f y) eqn:Hy.
    + split; [discriminate |]. intros H. specialize (H y (or_introl eq_refl)). congruence.
    + rewrite IH. split.
      * intros H x [-> | Hx]; auto.
      * intros H x Hx. apply H. now right.
Qed.

Lemma length_filter_pos {A} (f : A -> bool) (l : list A) :
  Nat.ltb 0 (List.length (filter f l)) = true <-> exists x, In x l /\ f x = true.
Proof.
  rewrite Nat.ltb_lt. split.
  - destruct (filter f l) as [| x t] eqn:Hf; simpl; [lia |]. intros _.
    assert (Hx : In x (filter f l)) by (rewrite Hf; now left).
    apply filter_In in Hx. now exists x.
  - intros [x Hx]. apply filter_In in Hx.
    destruct (filter f l); [contradiction | simpl; lia].
Qed.

(** ** The eligibility query *)

Lemma vote_matches_iff (userId electionId positionId : uuid) (v : Vote.t) :
  vote_matches userId electionId positionId v = true <->
  Vote.voterId v = userId /\ Vote.electionId v = electionId /\
  Vote.positionId v = positionId.
Proof.
  unfold vote_matches. rewrite !andb_true_iff, !String.eqb_eq. tauto.
Qed.

Lemma hasUserVoted_query_iff (userId electionId positionId : uuid) (db : Db) :
  hasUserVoted_query userId electionId positionId db = true <->
  exists v, In v (votes db) /\ Vote.voterId v = userId /\
            Vote.electionId v = electionId /\ Vote.positionId v = positionId.
Proof.
  unfold hasUserVoted_query. cbv zeta. rewrite length_filter_pos.
  split; intros [v [Hin Hv]]; exists v; split; trivial;
    now apply vote_matches_iff.
Qed.

(** C6. [hasUserVoted] leaves the database as it found it, and answers [true]
    exactly when some stored ballot has the given voter, election and
    position. *)
Theorem hasUserVoted_exact_and_pure :
  forall (userId electionId positionId : uuid) (db : Db),
    exists answer : bool,
      hasUserVoted userId electionId positionId db = (Ok answer, db) /\
      (answer = true <->
       exists v, In v (votes db) /\ Vote.voterId v = userId /\
                 Vote.electionId v = electionId /\ Vote.positionId v = positionId).
Proof.
  intros userId electionId positionId db.
  exists (hasUserVoted_query userId electionId positionId db). split.
  - reflexivity.
  - apply hasUserVoted_query_iff.
Qed.

(** ** Ballot uniqueness *)

(** What a submission by a logged-in user does, case by case. *)
Lemma post_vote_cases (user : User.t) (body : VoteBody) (d : Defaults) (db : Db) :
  (exists c e p,
      body_candidateId body = Some c /\ body_electionId body = Some e /\
      body_positionId body = Some p /\
      ((hasUserVoted_query (User.id user) e p db = true /\
        post_vote (Some user) body d db =
          (mkResponse 400 (Message "You have already voted for this position"), db))
       \/
       (hasUserVoted_query (User.id user) e p db = false /\
        let vote := new_vote d (InsertVote.mk (User.id user) c e p) in
        ((has_key (Vote.id vote) (map Vote.id (votes db)) = false /\
          vote_refs_ok db vote = true /\
          post_vote (Some user) body d db =
            (mkResponse 201 (VoteJson vote), set_votes db (votes db ++ [vote])))
         \/
         ((has_key (Vote.id vote) (map Vote.id (votes db)) = true \/
           vote_refs_ok db vote = false) /\
          post_vote (Some user) body d db =
            (mkResponse 500 (Message "Failed to submit vote"), db))))))
  \/
  ((body_candidateId body = None \/ body_electionId body = None \/
    body_positionId body = None) /\
   post_vote (Some user) body d db =
     (mkResponse 500 (Message "Failed to submit vote"), db)).
Proof.
  unfold post_vote, try_catch, bind, parse_vote, hasUserVoted, select, castVote, ret, throw.
  destruct (body_candidateId body) as [c |]; [| right; auto].
  destruct (body_electionId body) as [e |]; [| right; auto].
  destruct (body_positionId body) as [p |]; [| right; auto].
  left. exists c, e, p. repeat split. cbn [InsertVote.voterId InsertVote.electionId InsertVote.positionId].
  destruct (hasUserVoted_query (User.id user) e p db) eqn:Hvoted; [left; auto | right].
  split; [reflexivity |]. cbv zeta.
  destruct (has_key _ _) eqn:Hkey; cbn [negb andb].
  - right. auto.
  - destruct (vote_refs_ok db _) eqn:Hrefs; [left | right]; auto.
Qed.

Lemma post_vote_unique (session : option User.t) (body : VoteBody) (d : Defaults)
      (db : Db) :
  ballots_unique db -> ballots_unique (snd (post_vote session body d db)).
Proof.
  intros Huniq. destruct session as [user |]; [| exact Huniq].
  destruct (post_vote_cases user body d db)
    as [(c & e & p & _ & _ & _ & [[_ ->] | [Hfresh [(_ & _ & ->) | [_ ->]]]]) | [_ ->]];
    try exact Huniq.
  unfold ballots_unique. cbn [snd set_votes votes].
  rewrite map_app. apply NoDup_snoc; [exact Huniq |].
  cbn [map ballot_key new_vote Vote.voterId Vote.electionId Vote.positionId
       InsertVote.voterId InsertVote.electionId InsertVote.positionId].
  intros Hin. apply in_map_iff in Hin. destruct Hin as [v [Hkey Hv]].
  assert (Htrue : hasUserVoted_query (User.id user) e p db = true).
  { apply hasUserVoted_query_iff. exists v. unfold ballot_key in Hkey.
    inversion Hkey. auto. }
  congruence.
Qed.

Lemma submit_all_unique (subs : list Submission) :
  forall db, ballots_unique db -> ballots_unique (submit_all db subs).
Proof.
  induction subs as [| s subs IH]; intros db Huniq; [exact Huniq |].
  unfold submit_all. cbn [fold_left]. apply IH. unfold submit.
  now apply post_vote_unique.
Qed.

(** Submissions handled one at a time.  Starting from a ballot table
    without a repeated (voter, election, position), every sequence of
    submissions, each handled to completion before the next begins, leaves
    the table without one: two stored ballots that agree on voter,
    election and position are the same ballot.  A complete submission by a
    logged-in voter for a triple that is already recorded is answered 400
    "You have already voted for this position" and stores nothing. *)
Theorem ballot_uniqueness_invariant :
  forall (db : Db) (subs : list Submission),
    ballots_unique db ->
    ballots_unique (submit_all db subs) /\
    (forall b1 b2,
        In b1 (votes (submit_all db subs)) -> In b2 (votes (submit_all db subs)) ->
        Vote.voterId b1 = Vote.voterId b2 ->
        Vote.electionId b1 = Vote.electionId b2 ->
        Vote.positionId b1 = Vote.positionId b2 ->
        b1 = b2) /\
    (forall (user : User.t) (anyVoter : option uuid) (c e p : uuid) (d : Defaults),
        (exists v, In v (votes (submit_all db subs)) /\
                   Vote.voterId v = User.id user /\
                   Vote.electionId v = e /\ Vote.positionId v = p) ->
        post_vote (Some user) (mkVoteBody anyVoter (Some c) (Some e) (Some p)) d
                  (submit_all db subs) =
          (mkResponse 400 (Message "You have already voted for this position"),
           submit_all db subs)).
Proof.
  intros db subs Huniq.
  pose proof (submit_all_unique subs db Huniq) as Hafter.
  split; [exact Hafter | split].
  - intros b1 b2 H1 H2 Hv He Hp.
    apply (NoDup_map_eq ballot_key (votes (submit_all db subs))); trivial.
    unfold ballot_key. congruence.
  - intros user anyVoter c e p d Hrecorded.
    apply hasUserVoted_query_iff in Hrecorded.
    destruct (post_vote_cases user (mkVoteBody anyVoter (Some c) (Some e) (Some p)) d
                              (submit_all db subs))
      as [(c' & e' & p' & Hc & He & Hp & Hcases) | [Hmissing _]].
    + cbn in Hc, He, Hp. inversion Hc; inversion He; inversion Hp; subst c' e' p'.
      destruct Hcases as [[_ Hres] | [Hfalse _]]; [exact Hres | congruence].
    + cbn in Hmissing. destruct Hmissing as [H | [H | H]]; discriminate.
Qed.

Lemma ballot_uniqueness_invariant_witness :
  ballots_unique Campus.db0 /\
  ballots_unique (submit_all Campus.db0 alice_three_submissions) /\
  List.length (votes (submit_all Campus.db0 alice_three_submissions)) = 2.
Proof.
  assert (H0 : ballots_unique Campus.db0) by constructor.
  split; [exact H0 | split].
  - exact (proj1 (ballot_uniqueness_invariant Campus.db0 alice_three_submissions H0)).
  - reflexivity.
Defined.

(** *** Submissions that overlap

    Run without interruption, the steps of the handler are [post_vote]. *)
Lemma post_vote_in_steps (session : option User.t) (body : VoteBody) (d : Defaults)
      (db : Db) :
  let step1 := resume_vote d (begin_vote session body db) db in
  let step2 := resume_vote d (fst step1) (snd step1) in
  (Responded (fst (post_vote session body d db)), snd (post_vote session body d db)) =
  step2.
Proof.
  destruct session as [user |]; [| reflexivity].
  unfold post_vote, begin_vote, try_catch, bind, parse_vote, ret, throw.
  destruct (body_candidateId body) as [c |]; [| reflexivity].
  destruct (body_electionId body) as [e |]; [| reflexivity].
  destruct (body_positionId body) as [p |]; [| reflexivity].
  cbn [resume_vote InsertVote.voterId InsertVote.electionId InsertVote.positionId].
  unfold hasUserVoted, select.
  destruct (hasUserVoted_query (User.id user) e p db); [reflexivity |].
  cbn [fst snd resume_vote].
  now destruct (castVote d _ db) as [[vote | err] db'].
Qed.

(** C1 (the code at the failing input). Alice sends two submissions for
    President of the election [spring], one naming Bob and one naming Carol,
    and the second arrives while the first awaits its insert: both
    eligibility queries are answered before either ballot is stored.  Both
    submissions are answered 201, both ballots are stored, and the table
    holds two ballots of one voter for one election and position. *)
Lemma overlapping_submissions_store_two_ballots :
  overlapped
    (mkSubmission (Some Campus.alice) (Campus.body Campus.c_bob Campus.e_spring Campus.p_president)
                  (mkDefaults Campus.v_1 110))
    (mkSubmission (Some Campus.alice) (Campus.body Campus.c_carol Campus.e_spring Campus.p_president)
                  (mkDefaults Campus.v_2 110))
    Campus.db0 =
    (Responded (mkResponse 201 (VoteJson (Campus.ballot Campus.v_1 Campus.u_alice Campus.c_bob
                                                         Campus.p_president 110))),
     Responded (mkResponse 201 (VoteJson (Campus.ballot Campus.v_2 Campus.u_alice Campus.c_carol
                                                         Campus.p_president 110))),
     set_votes Campus.db0
       [ Campus.ballot Campus.v_1 Campus.u_alice Campus.c_bob Campus.p_president 110;
         Campus.ballot Campus.v_2 Campus.u_alice Campus.c_carol Campus.p_president 110 ]) /\
  ~ ballots_unique
      (set_votes Campus.db0
         [ Campus.ballot Campus.v_1 Campus.u_alice Campus.c_bob Campus.p_president 110;
           Campus.ballot Campus.v_2 Campus.u_alice Campus.c_carol Campus.p_president 110 ]).
Proof.
  split; [reflexivity |].
  unfold ballots_unique. cbn. intros Hnd.
  inversion Hnd as [| ? ? Hnotin _]. apply Hnotin. now left.
Qed.

(** ** What the voting endpoint checks

    Besides the session, the shape of the body and the eligibility query, the
    only checks are those of the [insert] itself: a fresh primary key and four
    resolving references. *)
Lemma post_vote_accepts (user : User.t) (anyVoter : option uuid) (c e p : uuid)
      (d : Defaults) (db : Db) :
  hasUserVoted_query (User.id user) e p db = false ->
  has_key (gen_random_uuid d) (map Vote.id (votes db)) = false ->
  vote_refs_ok db (new_vote d (InsertVote.mk (User.id user) c e p)) = true ->
  post_vote (Some user) (mkVoteBody anyVoter (Some c) (Some e) (Some p)) d db =
    (mkResponse 201 (VoteJson (new_vote d (InsertVote.mk (User.id user) c e p))),
     set_votes db (votes db ++ [new_vote d (InsertVote.mk (User.id user) c e p)])).
Proof.
  intros Hvoted Hfresh Hrefs.
  destruct (post_vote_cases user (mkVoteBody anyVoter (Some c) (Some e) (Some p)) d db)
    as [(c' & e' & p' & Hc & He & Hp & Hcases) | [Hmissing _]].
  - cbn in Hc, He, Hp. inversion Hc; inversion He; inversion Hp; subst c' e' p'.
    destruct Hcases as [[Htrue _] | [_ Hins]]; [congruence |].
    cbv zeta in Hins.
    destruct Hins as [(_ & _ & Hres) | [[Hdup | Hbad] _]];
      [exact Hres | cbn in Hdup; congruence | congruence].
  - cbn in Hmissing. destruct Hmissing as [H | [H | H]]; discriminate.
Qed.

(** C2 (the code at the failing inputs). At time 150 the election
    [winter] ended at 50 and the election [paused] is switched off, so neither
    is live; a vote submitted against either is answered 201 and stored. *)
Lemma closed_election_vote_is_stored :
  election_is_live 150 Campus.winter = false /\
  election_is_live 150 Campus.paused = false /\
  (let vote := Vote.mk Campus.v_9 Campus.u_alice Campus.c_erin_winter Campus.e_winter Campus.p_president 150 in
   post_vote (Some Campus.alice)
             (Campus.body Campus.c_erin_winter Campus.e_winter Campus.p_president)
             (mkDefaults Campus.v_9 150) Campus.db_voted =
     (mkResponse 201 (VoteJson vote),
      set_votes Campus.db_voted (votes Campus.db_voted ++ [vote]))) /\
  (let vote := Vote.mk Campus.v_9 Campus.u_alice Campus.c_erin_paused Campus.e_paused Campus.p_president 150 in
   post_vote (Some Campus.alice)
             (Campus.body Campus.c_erin_paused Campus.e_paused Campus.p_president)
             (mkDefaults Campus.v_9 150) Campus.db_voted =
     (mkResponse 201 (VoteJson vote),
      set_votes Campus.db_voted (votes Campus.db_voted ++ [vote]))).
Proof. repeat split; reflexivity. Qed.

(** C3 (the code at the failing inputs). Dave's candidacy is not approved,
    and Bob stands for President, not Secretary; a vote for Dave, and a vote
    for Bob as Secretary, are answered 201 and stored.  A vote for a candidate
    id that does not exist is answered 500 "Failed to submit vote" and stores
    nothing. *)
Lemma invalid_candidate_vote_is_stored :
  Candidate.isApproved Campus.cand_dave = false /\
  Candidate.positionId Campus.cand_bob <> Campus.p_secretary /\
  (let vote := Vote.mk Campus.v_9 Campus.u_alice Campus.c_dave Campus.e_spring Campus.p_secretary 150 in
   post_vote (Some Campus.alice)
             (Campus.body Campus.c_dave Campus.e_spring Campus.p_secretary)
             (mkDefaults Campus.v_9 150) Campus.db0 =
     (mkResponse 201 (VoteJson vote), set_votes Campus.db0 [vote])) /\
  (let vote := Vote.mk Campus.v_9 Campus.u_alice Campus.c_bob Campus.e_spring Campus.p_secretary 150 in
   post_vote (Some Campus.alice)
             (Campus.body Campus.c_bob Campus.e_spring Campus.p_secretary)
             (mkDefaults Campus.v_9 150) Campus.db0 =
     (mkResponse 201 (VoteJson vote), set_votes Campus.db0 [vote])) /\
  post_vote (Some Campus.alice)
            (Campus.body Campus.c_nobody Campus.e_spring Campus.p_secretary)
            (mkDefaults Campus.v_9 150) Campus.db0 =
    (mkResponse 500 (Message "Failed to submit vote"), Campus.db0).
Proof. repeat split; try reflexivity. discriminate. Qed.

(** ** Joins, loops and [order by] *)

Lemma in_innerJoin {A B} (l : list A) (r : list B) (on : A -> B -> bool)
      (a : A) (b : B) :
  In (a, b) (innerJoin l r on) <-> In a l /\ In b r /\ on a b = true.
Proof.
  unfold innerJoin. rewrite in_flat_map. split.
  - intros [a' [Ha Hb]]. apply in_map_iff in Hb. destruct Hb as [b' [Heq Hb]].
    inversion Heq; subst. apply filter_In in Hb. tauto.
  - intros (Ha & Hb & Hon). exists a. split; [assumption |].
    apply in_map. apply filter_In. tauto.
Qed.

Lemma insert_row_perm {A} (leb : A -> A -> bool) (x : A) (l : list A) :
  Permutation (insert_row leb x l) (x :: l).
Proof.
  induction l as [| y t IH]; simpl; [reflexivity |].
  destruct (leb x y); [reflexivity |].
  rewrite IH. apply perm_swap.
Qed.

Lemma orderBy_perm {A} (leb : A -> A -> bool) (l : list A) :
  Permutation (orderBy leb l) l.
Proof.
  induction l as [| x t IH]; simpl; [reflexivity |].
  rewrite insert_row_perm. now apply perm_skip.
Qed.

Lemma in_orderBy {A} (leb : A -> A -> bool) (l : list A) (x : A) :
  In x (orderBy leb l) <-> In x l.
Proof.
  split; apply Permutation_in; [| symmetry]; apply orderBy_perm.
Qed.

Section Sorted.
Context {A : Type} (leb : A -> A -> bool).
Hypothesis leb_total : forall a b, leb a b = true \/ leb b a = true.
Hypothesis leb_trans : forall a b c, leb a b = true -> leb b c = true -> leb a c = true.

Lemma insert_row_sorted (x : A) (l : list A) :
  StronglySorted (below leb) l -> StronglySorted (below leb) (insert_row leb x l).
Proof.
  induction l as [| y t IH]; simpl; intros Hs.
  - constructor; constructor.
  - inversion Hs as [| ? ? Ht Hy]; subst.
    destruct (leb x y) eqn:Hxy.
    + constructor; [assumption |]. constructor; [exact Hxy |].
      eapply Forall_impl; [| exact Hy]. intros z Hz. unfold below in *. eauto.
    + constructor; [now apply IH |].
      assert (Hyx : below leb y x) by (destruct (leb_total x y); [congruence | assumption]).
      apply Forall_forall. intros z Hz.
      apply (Permutation_in _ (insert_row_perm leb x t)) in Hz.
      destruct Hz as [<- | Hz]; [exact Hyx |].
      rewrite Forall_forall in Hy. now apply Hy.
Qed.

Lemma orderBy_sorted (l : list A) : StronglySorted (below leb) (orderBy leb l).
Proof.
  induction l as [| x t IH]; simpl; [constructor | now apply insert_row_sorted].
Qed.

(** In a sorted list, a row that stands before another is below it. *)
Lemma sorted_before (l1 l2 l3 : list A) (a b : A) :
  StronglySorted (below leb) (l1 ++ a :: l2 ++ b :: l3) -> leb a b = true.
Proof.
  induction l1 as [| x t IH]; simpl; intros Hs; inversion Hs as [| ? ? Ht Hall]; subst.
  - rewrite Forall_forall in Hall. apply Hall.
    rewrite in_app_iff. right. now left.
  - now apply IH.
Qed.
End Sorted.

Lemma mapM_select {A B} (f : A -> M B) (g : Db -> A -> B) (l : list A) (db : Db) :
  (forall x, f x db = (Ok (g db x), db)) ->
  mapM f l db = (Ok (map (g db) l), db).
Proof.
  intros Hf. induction l as [| x t IH]; [reflexivity |].
  cbn [mapM map]. unfold bind. rewrite Hf, IH. reflexivity.
Qed.

Lemma foldM_select {A S} (f : S -> A -> M S) (g : Db -> S -> A -> S) (db : Db)
      (l : list A) :
  (forall s x, f s x db = (Ok (g db s x), db)) ->
  forall s, foldM f l s db = (Ok (fold_left (g db) l s), db).
Proof.
  intros Hf. induction l as [| x t IH]; intros s; [reflexivity |].
  cbn [foldM fold_left]. unfold bind. rewrite Hf. apply IH.
Qed.

(** ** Consequences of the schema constraints *)

Lemma key_resolves {R} (id : R -> uuid) (k : uuid) (rows : list R) :
  has_key k (map id rows) = true -> exists r, In r rows /\ id r = k.
Proof.
  rewrite has_key_In, in_map_iff. intros [r [Hid Hr]]. now exists r.
Qed.

Lemma schema_primary_keys (db : Db) :
  schema_ok db = true ->
  NoDup (map User.id (users db)) /\ NoDup (map Club.id (clubs db)) /\
  NoDup (map Position.id (positions db)) /\ NoDup (map Election.id (elections db)) /\
  NoDup (map Candidate.id (candidates db)) /\ NoDup (map Vote.id (votes db)).
Proof.
  unfold schema_ok, primary_keys_ok. rewrite !andb_true_iff, !distinctb_NoDup. tauto.
Qed.

Lemma schema_election_club (db : Db) (e : Election.t) :
  schema_ok db = true -> In e (elections db) ->
  exists c, In c (clubs db) /\ Club.id c = Election.clubId e.
Proof.
  unfold schema_ok, foreign_keys_ok. rewrite !andb_true_iff, !forallb_forall.
  intros (_ & ((_ & He) & _) & _) Hin. apply key_resolves. now apply He.
Qed.

Lemma schema_candidate_refs (db : Db) (c : Candidate.t) :
  schema_ok db = true -> In c (candidates db) ->
  (exists u, In u (users db) /\ User.id u = Candidate.userId c) /\
  (exists p, In p (positions db) /\ Position.id p = Candidate.positionId c).
Proof.
  unfold schema_ok, foreign_keys_ok. rewrite !andb_true_iff, !forallb_forall.
  intros (_ & ((_ & Hc) & _)) Hin. specialize (Hc c Hin).
  unfold candidate_refs_ok in Hc. rewrite !andb_true_iff in Hc.
  split; apply key_resolves; tauto.
Qed.

(** ** Liveness of an election *)

Lemma getActiveElections_runs (now : timestamp) (db : Db) :
  getActiveElections now db =
    (Ok (map (fun ec => ActiveElection.mk (fst ec) (snd ec)
                          (getPositionsByClub_query (Club.id (snd ec)) db))
             (activeElections_query now db)),
     db).
Proof.
  unfold getActiveElections, bind, select.
  apply (mapM_select _ (fun db ec => ActiveElection.mk (fst ec) (snd ec)
                          (getPositionsByClub_query (Club.id (snd ec)) db))).
  reflexivity.
Qed.

Lemma in_activeElections_query (now : timestamp) (db : Db) (e : Election.t) (c : Club.t) :
  In (e, c) (activeElections_query now db) <->
  In e (elections db) /\ In c (clubs db) /\ Election.clubId e = Club.id c /\
  Election.isActive e = true /\ (now < Election.endDate e)%Z.
Proof.
  unfold activeElections_query. rewrite in_orderBy, filter_In, in_innerJoin.
  unfold election_is_live. cbn [fst].
  rewrite andb_true_iff, Bool.eqb_true_iff, Z.ltb_lt, String.eqb_eq. tauto.
Qed.



(** ** The candidate roster *)

(** Looking a key up in a table whose key column has no repeated value finds
    exactly the row that carries it. *)
Lemma filter_by_key {R} (id : R -> uuid) (k : uuid) (rows : list R) (r : R) :
  NoDup (map id rows) -> In r rows -> id r = k ->
  filter (fun x => String.eqb k (id x)) rows = [r].
Proof.
  induction rows as [| y t IH]; simpl; intros Hnd Hin Hk; [contradiction |].
  inversion Hnd as [| ? ? Hy Ht]; subst.
  destruct Hin as [-> | Hin].
  - rewrite String.eqb_refl. f_equal.
    apply filter_nil_iff. intros x Hx. apply String.eqb_neq.
    intros Heq. apply Hy. rewrite Heq. now apply in_map.
  - destruct (String.eqb (id r) (id y)) eqn:Heq.
    + apply String.eqb_eq in Heq. exfalso. apply Hy. rewrite <- Heq. now apply in_map.
    + now apply IH.
Qed.

Lemma innerJoin_one_match {A B} (l : list A) (r : list B) (on : A -> B -> bool)
      (pick : A -> B) :
  (forall a, In a l -> filter (on a) r = [pick a]) ->
  innerJoin l r on = map (fun a => (a, pick a)) l.
Proof.
  unfold innerJoin. induction l as [| a t IH]; intros H; [reflexivity |].
  cbn [flat_map map]. rewrite (H a (or_introl eq_refl)), IH.
  - reflexivity.
  - intros a' Ha'. apply H. now right.
Qed.

Lemma innerJoin_keeps_left {A B} (l : list A) (r : list B) (on : A -> B -> bool) :
  (forall a, In a l -> exists b, filter (on a) r = [b]) ->
  map fst (innerJoin l r on) = l.
Proof.
  unfold innerJoin. induction l as [| a t IH]; intros H; [reflexivity |].
  cbn [flat_map]. rewrite map_app, IH by (intros a' Ha'; apply H; now right).
  destruct (H a (or_introl eq_refl)) as [b ->]. reflexivity.
Qed.

Lemma map_filter_comm {A B} (f : A -> B) (g : B -> bool) (l : list A) :
  map f (filter (fun x => g (f x)) l) = filter g (map f l).
Proof.
  induction l as [| x t IH]; simpl; [reflexivity |].
  destruct (g (f x)); simpl; now rewrite IH.
Qed.

(** Under the schema constraints the two inner joins neither drop nor repeat
    a candidate. *)
Lemma candidate_user_position_candidates (db : Db) :
  schema_ok db = true ->
  map (fun row => fst (fst row)) (candidate_user_position db) = candidates db.
Proof.
  intros Hok.
  destruct (schema_primary_keys db Hok) as (Hu & _ & Hp & _).
  assert (Hcu : map fst (innerJoin (candidates db) (users db)
                  (fun c u => String.eqb (Candidate.userId c) (User.id u)))
                = candidates db).
  { apply innerJoin_keeps_left. intros c Hc.
    destruct (schema_candidate_refs db c Hok Hc) as [[u [Hin Hid]] _].
    exists u. now apply (filter_by_key User.id). }
  unfold candidate_user_position.
  rewrite <- (map_map fst fst), innerJoin_keeps_left; [exact Hcu |].
  intros [c u] Hc. cbn [fst].
  assert (Hc' : In c (candidates db)).
  { rewrite <- Hcu. apply (in_map fst) in Hc. exact Hc. }
  destruct (schema_candidate_refs db c Hok Hc') as [_ [p [Hin Hid]]].
  exists p. now apply (filter_by_key Position.id).
Qed.

Lemma parse_uuid_route (id : string) (db : Db) :
  match parse_uuid id with
  | Some electionId =>
      get_election_candidates id db =
        (Sent (getCandidatesByElection_query electionId db), db) /\
      forall admin, User.role admin = "admin" ->
        get_election_results (Some admin) id db =
          (Sent (getElectionResults_query electionId db), db)
  | None =>
      get_election_candidates id db = (Failed 500 "Failed to fetch candidates", db) /\
      forall admin, User.role admin = "admin" ->
        get_election_results (Some admin) id db =
          (Failed 500 "Failed to fetch election results", db)
  end.
Proof.
  unfold get_election_candidates, get_election_results, try_catch, bind, as_uuid.
  destruct (parse_uuid id) as [electionId |]; (split; [reflexivity |]);
    intros admin Hrole; rewrite Hrole; reflexivity.
Qed.

Lemma roster_candidates (db : Db) (electionId : uuid) :
  schema_ok db = true ->
  map CandidateWithUser.candidate (getCandidatesByElection_query electionId db) =
  filter (on_roster electionId) (candidates db).
Proof.
  intros Hok.
  unfold getCandidatesByElection_query. rewrite map_map. cbn [CandidateWithUser.candidate].
  rewrite <- (candidate_user_position_candidates db Hok).
  rewrite <- (map_filter_comm (fun row => fst (fst row)) (on_roster electionId)).
  reflexivity.
Qed.

(** C8. Under the schema constraints, [GET /api/elections/:id/candidates]
    with the id of an election answers with the candidates of that election
    whose approval flag is set, each once and in some order: a candidate is
    on the roster exactly when it is stored, belongs to the election and is
    approved.  The route leaves the database as it was.  (With a text that
    is not a uuid the query throws and the route answers 500.) *)
Theorem roster_is_exactly_the_approved_candidates :
  forall (db : Db) (id : string),
    schema_ok db = true ->
    (forall electionId, parse_uuid id = Some electionId ->
       exists roster,
         get_election_candidates id db = (Sent roster, db) /\
         Permutation (map CandidateWithUser.candidate roster)
                     (filter (on_roster electionId) (candidates db)) /\
         (forall c, In c (map CandidateWithUser.candidate roster) <->
                    In c (candidates db) /\ Candidate.electionId c = electionId /\
                    Candidate.isApproved c = true)) /\
    (parse_uuid id = None ->
       get_election_candidates id db = (Failed 500 "Failed to fetch candidates", db)).
Proof.
  intros db id Hok.
  pose proof (parse_uuid_route id db) as Hroute.
  split.
  - intros electionId Hid. rewrite Hid in Hroute. destruct Hroute as [Hrun _].
    exists (getCandidatesByElection_query electionId db).
    pose proof (roster_candidates db electionId Hok) as Heq.
    split; [exact Hrun | split; [now rewrite Heq |]].
    intros c. rewrite Heq, filter_In. unfold on_roster.
    rewrite andb_true_iff, String.eqb_eq, Bool.eqb_true_iff. tauto.
  - intros Hid. rewrite Hid in Hroute. exact (proj1 Hroute).
Qed.

Lemma roster_is_exactly_the_approved_candidates_witness :
  schema_ok Campus.db_voted = true /\
  parse_uuid Campus.e_spring = Some Campus.e_spring /\
  exists roster,
    get_election_candidates Campus.e_spring Campus.db_voted = (Sent roster, Campus.db_voted) /\
    Permutation (map CandidateWithUser.candidate roster)
                [Campus.cand_alice; Campus.cand_bob; Campus.cand_carol].
Proof.
  split; [reflexivity | split; [reflexivity |]].
  destruct (proj1 (roster_is_exactly_the_approved_candidates Campus.db_voted Campus.e_spring
                     eq_refl) Campus.e_spring eq_refl)
    as [roster [Hrun [Hroster _]]].
  exists roster. split; [exact Hrun | exact Hroster].
Defined.

(** ** [group by] *)

Section GroupByFacts.
Context {A : Type} (same : A -> A -> bool).
Hypothesis same_refl : forall a, same a a = true.
Hypothesis same_sym : forall a b, same a b = same b a.
Hypothesis same_trans : forall a b c, same a b = true -> same b c = true -> same a c = true.

Lemma same_class (a b c : A) : same a b = true -> same a c = same b c.
Proof.
  intros Hab. destruct (same b c) eqn:Hbc.
  - eauto.
  - destruct (same a c) eqn:Hac; [| reflexivity].
    rewrite same_sym in Hab. rewrite <- Hbc. symmetry. eauto.
Qed.

Lemma groupBy_first_in (l : list A) (g : A * list A) :
  In g (groupBy same l) -> In (fst g) l.
Proof.
  revert g. induction l as [| x t IH]; intros g; cbn [groupBy]; [intros [] |].
  intros [<- | Hg]; [now left |].
  apply filter_In in Hg. right. now apply IH.
Qed.

(** The groups that are in the class of [x], put end to end, are the rows
    of that class in their original order. *)
Lemma groupBy_class (l : list A) :
  forall x,
    flat_map members (filter (fun g => same x (fst g)) (groupBy same l)) =
    filter (same x) l.
Proof.
  induction l as [| y t IH]; intros x; [reflexivity |].
  cbn [groupBy filter fst]. destruct (same x y) eqn:Hxy.
  - cbn [flat_map]. rewrite (IH y).
    rewrite (filter_ext (same x) (same y)) by (intros z; now apply same_class).
    replace (filter _ (filter _ (groupBy same t))) with (@nil (A * list A));
      [cbn [flat_map members fst snd]; now rewrite app_nil_r |].
    symmetry. apply filter_nil_iff. intros g Hg. apply filter_In in Hg.
    destruct Hg as [_ Hg]. apply negb_true_iff in Hg.
    now rewrite (same_class x y (fst g) Hxy).
  - rewrite <- (IH x). f_equal. clear IH.
    induction (groupBy same t) as [| g gs IHgs]; [reflexivity |].
    cbn [filter]. destruct (same y (fst g)) eqn:Hyg; cbn [negb filter].
    + destruct (same x (fst g)) eqn:Hxg; [| exact IHgs].
      exfalso. rewrite (same_sym y (fst g)) in Hyg.
      rewrite (same_trans _ _ _ Hxg Hyg) in Hxy. discriminate.
    + now rewrite IHgs.
Qed.

Lemma groupBy_cons (x : A) (t : list A) :
  groupBy same (x :: t) =
    (x, flat_map members (filter (fun g => same x (fst g)) (groupBy same t)))
      :: filter (fun g => negb (same x (fst g))) (groupBy same t).
Proof. reflexivity. Qed.

(** A run of rows of one class, followed by rows of other classes, forms
    the first group. *)
Lemma groupBy_run (x : A) (run rest : list A) :
  (forall y, In y run -> same x y = true) ->
  (forall z, In z rest -> same x z = false) ->
  groupBy same ((x :: run) ++ rest) = (x, run) :: groupBy same rest.
Proof.
  revert x. induction run as [| y run IH]; intros x Hrun Hrest.
  - cbn [app groupBy]. f_equal.
    + f_equal. rewrite groupBy_class. now apply filter_nil_iff.
    + apply forallb_filter_id. apply forallb_forall. intros g Hg.
      apply negb_true_iff, Hrest. now apply groupBy_first_in.
  - assert (Hxy : same x y = true) by (apply Hrun; now left).
    change ((x :: y :: run) ++ rest) with (x :: ((y :: run) ++ rest)).
    rewrite groupBy_cons, groupBy_class.
    rewrite (IH y).
    + cbn [filter fst]. rewrite Hxy. cbn [negb]. f_equal.
      * f_equal. change ((y :: run) ++ rest) with (y :: run ++ rest).
        cbn [filter]. rewrite Hxy. f_equal. rewrite filter_app.
        rewrite (proj2 (filter_nil_iff (same x) rest) Hrest), app_nil_r.
        apply forallb_filter_id. apply forallb_forall. intros z Hz.
        apply Hrun. now right.
      * apply forallb_filter_id. apply forallb_forall. intros g Hg.
        apply negb_true_iff, Hrest. now apply groupBy_first_in.
    + intros z Hz. rewrite <- (same_class x y z Hxy). apply Hrun. now right.
    + intros z Hz. rewrite <- (same_class x y z Hxy). now apply Hrest.
Qed.

(** Rows that arrive block by block, each block of one class and the blocks
    of pairwise different classes, are grouped into exactly those blocks. *)
Lemma groupBy_blocks {B} (block : B -> A * list A) (bs : list B) :
  (forall b y, In b bs -> In y (snd (block b)) -> same (fst (block b)) y = true) ->
  ForallOrdPairs
    (fun b1 b2 => forall z, In z (members (block b2)) ->
                            same (fst (block b1)) z = false) bs ->
  groupBy same (flat_map (fun b => members (block b)) bs) = map block bs.
Proof.
  induction bs as [| b bs IH]; intros Hrun Hdist; [reflexivity |].
  inversion Hdist as [| ? ? Hb Hbs]; subst.
  cbn [flat_map map]. unfold members at 1.
  rewrite groupBy_run.
  - rewrite IH; [now destruct (block b) | | assumption].
    intros b' y Hb'. apply Hrun. now right.
  - intros y. apply Hrun. now left.
  - intros z Hz. apply in_flat_map in Hz. destruct Hz as [b' [Hb' Hz]].
    rewrite Forall_forall in Hb. now apply (Hb b').
Qed.
End GroupByFacts.

(** ** [left join] *)

Lemma leftJoin_blocks {A B} (l : list A) (r : list B) (on : A -> B -> bool) :
  leftJoin l r on = flat_map (fun a => members (leftJoin_block r on a)) l.
Proof.
  unfold leftJoin. apply flat_map_ext. intros a.
  unfold leftJoin_block. now destruct (filter (on a) r).
Qed.

Lemma leftJoin_block_left {A B} (r : list B) (on : A -> B -> bool) (a : A)
      (row : A * option B) :
  In row (members (leftJoin_block r on a)) -> fst row = a.
Proof.
  unfold leftJoin_block, members. destruct (filter (on a) r) as [| b bs]; cbn [fst snd].
  - intros [<- | []]. reflexivity.
  - intros [<- | Hin]; [reflexivity |].
    apply in_map_iff in Hin. destruct Hin as [b' [<- _]]. reflexivity.
Qed.

(** A condition on the left row can be applied before the join. *)
Lemma leftJoin_filter_left {A B} (Q : A -> bool) (l : list A) (r : list B)
      (on : A -> B -> bool) :
  filter (fun row => Q (fst row)) (leftJoin l r on) = leftJoin (filter Q l) r on.
Proof.
  rewrite !leftJoin_blocks.
  induction l as [| a t IH]; [reflexivity |].
  cbn [flat_map filter]. rewrite filter_app, IH.
  destruct (Q a) eqn:HQ; cbn [flat_map].
  - f_equal. apply forallb_filter_id. apply forallb_forall. intros row Hrow.
    now rewrite (leftJoin_block_left r on a row Hrow).
  - rewrite (proj2 (filter_nil_iff _ _)); [reflexivity |].
    intros row Hrow. now rewrite (leftJoin_block_left r on a row Hrow).
Qed.

Lemma NoDup_map_filter {A B} (f : A -> B) (Q : A -> bool) (l : list A) :
  NoDup (map f l) -> NoDup (map f (filter Q l)).
Proof.
  induction l as [| x t IH]; simpl; intros Hnd; [constructor |].
  inversion Hnd as [| ? ? Hx Ht]; subst.
  destruct (Q x); simpl; [| now apply IH].
  constructor; [| now apply IH].
  intros Hin. apply Hx. apply in_map_iff in Hin. destruct Hin as [y [Hy Hin]].
  apply filter_In in Hin. rewrite <- Hy. apply in_map. tauto.
Qed.

Lemma NoDup_map_pairs {A B} (f : A -> B) (l : list A) :
  NoDup (map f l) -> ForallOrdPairs (fun a b => f a <> f b) l.
Proof.
  induction l as [| x t IH]; simpl; intros Hnd; [constructor |].
  inversion Hnd as [| ? ? Hx Ht]; subst. constructor; [| now apply IH].
  apply Forall_forall. intros y Hy Heq. apply Hx. rewrite Heq. now apply in_map.
Qed.

Lemma ordered_pairs_impl {A} (R1 R2 : A -> A -> Prop) (l : list A) :
  (forall a b, R1 a b -> R2 a b) -> ForallOrdPairs R1 l -> ForallOrdPairs R2 l.
Proof.
  intros Himpl H. induction H as [| a l Ha Hl IH]; constructor; [| exact IH].
  eapply Forall_impl; [| exact Ha]. intros b. apply Himpl.
Qed.

(** ** The tally, candidate by candidate *)

Lemma same_tally_group_refl (a : TallyRow) : same_tally_group a a = true.
Proof. unfold same_tally_group. now rewrite !String.eqb_refl. Qed.

Lemma same_tally_group_sym (a b : TallyRow) :
  same_tally_group a b = same_tally_group b a.
Proof.
  unfold same_tally_group.
  now rewrite (String.eqb_sym (Candidate.id _)), (String.eqb_sym (User.id _)),
    (String.eqb_sym (Position.id _)).
Qed.

Lemma same_tally_group_trans (a b c : TallyRow) :
  same_tally_group a b = true -> same_tally_group b c = true ->
  same_tally_group a c = true.
Proof.
  unfold same_tally_group. rewrite !andb_true_iff, !String.eqb_eq.
  intros [[Hc Hu] Hp] [[Hc' Hu'] Hp']. repeat split; congruence.
Qed.

Lemma same_tally_group_left (a b : TallyRow) :
  fst a = fst b -> same_tally_group a b = true.
Proof.
  unfold same_tally_group. intros ->. now rewrite !String.eqb_refl.
Qed.

Lemma same_tally_group_other (a b : TallyRow) :
  Candidate.id (fst (fst (fst a))) <> Candidate.id (fst (fst (fst b))) ->
  same_tally_group a b = false.
Proof.
  unfold same_tally_group. intros Hdiff. apply String.eqb_neq in Hdiff.
  now rewrite Hdiff.
Qed.

Lemma tally_select_block (db : Db) (cup : Candidate.t * User.t * Position.t) :
  tally_select (leftJoin_block (votes db) names_candidate cup) = tally_of db cup.
Proof.
  unfold tally_select, tally_of, getVoteCount_query, leftJoin_block, names_candidate.
  destruct (filter _ (votes db)) as [| v vs]; cbn; [reflexivity |].
  do 2 f_equal. induction vs as [| v' vs IH]; cbn; [reflexivity | now rewrite IH].
Qed.

(** Under the schema constraints the join, the grouping and the count amount
    to one output row per candidate of the election, carrying the number of
    votes that name it; the rows are then ordered. *)
Lemma getElectionResults_by_candidate (electionId : uuid) (db : Db) :
  schema_ok db = true ->
  getElectionResults_query electionId db =
    orderBy tally_order
      (map (tally_of db) (filter (in_election electionId) (candidate_user_position db))).
Proof.
  intros Hok. unfold getElectionResults_query. f_equal.
  unfold tally_rows.
  rewrite (leftJoin_filter_left (in_election electionId)), leftJoin_blocks.
  rewrite (groupBy_blocks same_tally_group same_tally_group_sym
                          same_tally_group_trans).
  - rewrite map_map. apply map_ext. intros cup. apply tally_select_block.
  - intros cup row _ Hrow.
    assert (Hfirst : fst (fst (leftJoin_block (votes db) names_candidate cup)) = cup).
    { apply (leftJoin_block_left (votes db) names_candidate). now left. }
    assert (Hleft : fst row = cup).
    { apply (leftJoin_block_left (votes db) names_candidate). now right. }
    apply same_tally_group_left. congruence.
  - assert (Hnd : NoDup (map (fun cup : Candidate.t * User.t * Position.t =>
                                Candidate.id (fst (fst cup)))
                             (filter (in_election electionId)
                                     (candidate_user_position db)))).
    { apply NoDup_map_filter.
      rewrite <- (map_map (fun row => fst (fst row)) Candidate.id).
      rewrite (candidate_user_position_candidates db Hok).
      apply (schema_primary_keys db Hok). }
    apply NoDup_map_pairs in Hnd.
    eapply ordered_pairs_impl; [| exact Hnd].
    intros cup1 cup2 Hdiff row Hrow.
    assert (Hfirst : fst (fst (leftJoin_block (votes db) names_candidate cup1)) = cup1).
    { apply (leftJoin_block_left (votes db) names_candidate). now left. }
    apply (leftJoin_block_left (votes db) names_candidate) in Hrow.
    apply same_tally_group_other. cbv beta in Hdiff. congruence.
Qed.

(** ** The order of the tally *)

Lemma ascii_compare_refl (a : ascii) : Ascii.compare a a = Eq.
Proof. unfold Ascii.compare. apply N.compare_refl. Qed.

Lemma ascii_compare_lt_trans (a b c : ascii) :
  Ascii.compare a b = Lt -> Ascii.compare b c = Lt -> Ascii.compare a c = Lt.
Proof.
  unfold Ascii.compare. rewrite !N.compare_lt_iff. apply N.lt_trans.
Qed.

Lemma string_compare_refl (s : string) : String.compare s s = Eq.
Proof.
  induction s as [| a s IH]; simpl; [reflexivity |].
  now rewrite ascii_compare_refl.
Qed.

Lemma string_compare_lt_trans (s1 : string) :
  forall s2 s3,
    String.compare s1 s2 = Lt -> String.compare s2 s3 = Lt ->
    String.compare s1 s3 = Lt.
Proof.
  induction s1 as [| a s1 IH]; intros [| b s2] [| c s3]; simpl; try congruence.
  destruct (Ascii.compare a b) eqn:Hab; try discriminate;
    destruct (Ascii.compare b c) eqn:Hbc; try discriminate; intros H12 H23.
  - apply Ascii.compare_eq_iff in Hab, Hbc. subst.
    rewrite ascii_compare_refl. eauto.
  - apply Ascii.compare_eq_iff in Hab. subst. now rewrite Hbc.
  - apply Ascii.compare_eq_iff in Hbc. subst. now rewrite Hab.
  - now rewrite (ascii_compare_lt_trans a b c Hab Hbc).
Qed.

Lemma tally_order_iff (a b : Result.t) :
  tally_order a b = true <->
  String.compare (Position.name (Result.position a))
                 (Position.name (Result.position b)) = Lt \/
  (Position.name (Result.position a) = Position.name (Result.position b) /\
   Result.voteCount b <= Result.voteCount a).
Proof.
  unfold tally_order.
  destruct (String.compare _ _) eqn:Hcmp.
  - apply String.compare_eq_iff in Hcmp. rewrite Nat.leb_le. split.
    + intros H. right. now split.
    + intros [H | [_ H]]; [discriminate | exact H].
  - split; [now left | reflexivity].
  - split; [discriminate |]. intros [H | [Heq _]]; [discriminate |].
    rewrite Heq, string_compare_refl in Hcmp. discriminate.
Qed.

Lemma tally_order_total (a b : Result.t) :
  tally_order a b = true \/ tally_order b a = true.
Proof.
  unfold tally_order. rewrite (String.compare_antisym (Position.name (Result.position b))).
  destruct (String.compare _ _); cbn [CompOpp]; auto.
  rewrite !Nat.leb_le. lia.
Qed.

Lemma tally_order_trans (a b c : Result.t) :
  tally_order a b = true -> tally_order b c = true -> tally_order a c = true.
Proof.
  rewrite !tally_order_iff.
  intros [Hab | [Hab Hn]] [Hbc | [Hbc Hm]].
  - left. eapply string_compare_lt_trans; eauto.
  - left. now rewrite <- Hbc.
  - left. now rewrite Hab.
  - right. split; [congruence | lia].
Qed.

Lemma getElectionResults_sorted (electionId : uuid) (db : Db) :
  StronglySorted (below tally_order) (getElectionResults_query electionId db).
Proof.
  apply orderBy_sorted; [apply tally_order_total | apply tally_order_trans].
Qed.

(** C4 (as the code has it). In the tally, a row that stands before
    another row does not come later in the order of position names, and when
    the two rows have the same position name the earlier row has at least as
    many votes: within a position the vote counts descend.  The query names
    no key beyond the position name and the count. *)
Theorem tally_descends_within_position :
  forall (db : Db) (electionId : uuid) (before between after : list Result.t)
         (r1 r2 : Result.t),
    getElectionResults_query electionId db = before ++ r1 :: between ++ r2 :: after ->
    String.compare (Position.name (Result.position r1))
                   (Position.name (Result.position r2)) <> Gt /\
    (Position.name (Result.position r1) = Position.name (Result.position r2) ->
     Result.voteCount r2 <= Result.voteCount r1).
Proof.
  intros db electionId before between after r1 r2 Hout.
  pose proof (getElectionResults_sorted electionId db) as Hsorted.
  rewrite Hout in Hsorted.
  apply (sorted_before tally_order) in Hsorted.
  apply tally_order_iff in Hsorted. split.
  - destruct Hsorted as [Hlt | [Heq _]]; [congruence |].
    rewrite Heq, string_compare_refl. discriminate.
  - intros Heq. destruct Hsorted as [Hlt | [_ Hle]]; [| exact Hle].
    rewrite Heq, string_compare_refl in Hlt. discriminate.
Qed.

Lemma tally_descends_within_position_witness :
  getElectionResults_query Campus.e_spring Campus.db_voted =
    [] ++ Result.mk Campus.cand_bob Campus.bob Campus.president 1
       :: [Result.mk Campus.cand_carol Campus.carol Campus.president 1]
       ++ Result.mk Campus.cand_alice Campus.alice Campus.president 0
       :: [Result.mk Campus.cand_dave Campus.dave Campus.secretary 1] /\
  0 <= 1.
Proof.
  split; [reflexivity |].
  exact (proj2 (tally_descends_within_position Campus.db_voted Campus.e_spring []
                  [Result.mk Campus.cand_carol Campus.carol Campus.president 1]
                  [Result.mk Campus.cand_dave Campus.dave Campus.secretary 1]
                  (Result.mk Campus.cand_bob Campus.bob Campus.president 1)
                  (Result.mk Campus.cand_alice Campus.alice Campus.president 0)
                  eq_refl)
               eq_refl).
Defined.

(** What [getElectionResults_query] computes is one of the answers of the
    query. *)
Lemma getElectionResults_query_answers (electionId : uuid) (db : Db) :
  tally_answers electionId db (getElectionResults_query electionId db).
Proof.
  split; [| apply getElectionResults_sorted].
  unfold getElectionResults_query. apply orderBy_perm.
Qed.

(** Rows that may stand in either order may stand in any. *)
Lemma sorted_when_all_tie {A} (R : A -> A -> Prop) (l : list A) :
  (forall a b, In a l -> In b l -> R a b) -> StronglySorted R l.
Proof.
  induction l as [| x t IH]; intros Hall; constructor.
  - apply IH. intros a b Ha Hb. apply Hall; now right.
  - apply Forall_forall. intros b Hb. apply Hall; [now left | now right].
Qed.

(** Ties.  In [Tie.db] the five candidates for Chair have one vote each,
    so the query's order tells no two of the five rows apart: the
    answers it allows are the 120 arrangements of [Tie.tally], which itself
    is one of them.  [Tie.tally] begins with Ann, whose candidacy was
    created last, and ends with Eve, whose candidacy was created first;
    only one arrangement in 120 lists the five by creation. *)
Lemma tally_tie_not_by_creation_order :
  (forall out, tally_answers Tie.e_autumn Tie.db out <-> Permutation out Tie.tally) /\
  tally_answers Tie.e_autumn Tie.db Tie.tally /\
  Forall (fun r => Result.position r = Tie.chair /\ Result.voteCount r = 1) Tie.tally /\
  map (fun r => Candidate.createdAt (Result.candidate r)) Tie.tally =
    [50; 40; 30; 20; 10]%Z.
Proof.
  assert (Hrows : map tally_select
                      (groupBy same_tally_group (tally_rows Tie.e_autumn Tie.db)) =
                  Tie.tally) by reflexivity.
  assert (Hall : Forall (fun r => Result.position r = Tie.chair /\ Result.voteCount r = 1)
                        Tie.tally).
  { repeat constructor. }
  assert (Hanswers : forall out, tally_answers Tie.e_autumn Tie.db out <->
                                 Permutation out Tie.tally).
  { intros out. unfold tally_answers. rewrite Hrows. split; [now intros [Hperm _] |].
    intros Hperm. split; [exact Hperm |].
    apply sorted_when_all_tie. intros a b Ha Hb.
    apply (Permutation_in _ Hperm) in Ha. apply (Permutation_in _ Hperm) in Hb.
    rewrite Forall_forall in Hall.
    destruct (Hall a Ha) as [Hpa Hca]. destruct (Hall b Hb) as [Hpb Hcb].
    unfold below, tally_order. rewrite Hpa, Hpb, Hca, Hcb. reflexivity. }
  split; [exact Hanswers | split; [| split; [exact Hall | reflexivity]]].
  apply Hanswers. apply Permutation_refl.
Qed.

(** ** Who appears in the tally *)

Lemma tally_row_of_candidate (db : Db) (electionId : uuid) (c : Candidate.t) :
  schema_ok db = true ->
  In c (candidates db) ->
  Candidate.electionId c = electionId ->
  exists r,
    In r (getElectionResults_query electionId db) /\
    Result.candidate r = c /\
    Result.voteCount r = getVoteCount_query (Candidate.id c) db.
Proof.
  intros Hok Hc He.
  rewrite (getElectionResults_by_candidate electionId db Hok).
  rewrite <- (candidate_user_position_candidates db Hok) in Hc.
  apply in_map_iff in Hc. destruct Hc as [cup [Hcup Hin]].
  exists (tally_of db cup). split; [| split].
  - apply in_orderBy, in_map, filter_In. split; [exact Hin |].
    unfold in_election. rewrite Hcup, He. apply String.eqb_refl.
  - exact Hcup.
  - cbn [tally_of Result.voteCount]. now rewrite Hcup.
Qed.

Lemma tally_candidates_perm (db : Db) (electionId : uuid) :
  schema_ok db = true ->
  Permutation
    (map Result.candidate (getElectionResults_query electionId db))
    (filter (fun c => String.eqb (Candidate.electionId c) electionId) (candidates db)).
Proof.
  intros Hok.
  rewrite (getElectionResults_by_candidate electionId db Hok).
  rewrite (orderBy_perm tally_order).
  rewrite map_map. cbn [tally_of Result.candidate].
  rewrite <- (candidate_user_position_candidates db Hok).
  rewrite <- (map_filter_comm (fun row : Candidate.t * User.t * Position.t => fst (fst row))
                (fun c => String.eqb (Candidate.electionId c) electionId)).
  reflexivity.
Qed.

(** C5. Under the schema constraints, the rows of the tally are, up to
    their order, the candidates of the election, each once; a candidate of the
    election that no stored vote names has a row, and its [voteCount] is 0. *)
Theorem zero_ballot_candidates_are_tallied :
  forall (db : Db) (electionId : uuid) (c : Candidate.t),
    schema_ok db = true ->
    In c (candidates db) ->
    Candidate.electionId c = electionId ->
    (forall v, In v (votes db) -> Vote.candidateId v <> Candidate.id c) ->
    exists results,
      getElectionResults electionId db = (Ok results, db) /\
      Permutation
        (map Result.candidate results)
        (filter (fun c' => String.eqb (Candidate.electionId c') electionId)
                (candidates db)) /\
      exists r, In r results /\ Result.candidate r = c /\ Result.voteCount r = 0.
Proof.
  intros db electionId c Hok Hc He Hnone.
  exists (getElectionResults_query electionId db).
  split; [reflexivity | split; [now apply tally_candidates_perm |]].
  destruct (tally_row_of_candidate db electionId c Hok Hc He) as [r (Hr & Hcand & Hcount)].
  exists r. split; [exact Hr | split; [exact Hcand |]].
  rewrite Hcount. unfold getVoteCount_query.
  rewrite (proj2 (filter_nil_iff _ _)); [reflexivity |].
  intros v Hv. apply String.eqb_neq. now apply Hnone.
Qed.

Lemma zero_ballot_candidates_are_tallied_witness :
  schema_ok Campus.db_voted = true /\
  exists results,
    getElectionResults Campus.e_spring Campus.db_voted = (Ok results, Campus.db_voted) /\
    exists r, In r results /\ Result.candidate r = Campus.cand_alice /\
              Result.voteCount r = 0.
Proof.
  split; [reflexivity |].
  assert (Hin : In Campus.cand_alice (candidates Campus.db_voted)) by (now left).
  assert (Hnone : forall v, In v (votes Campus.db_voted) ->
                            Vote.candidateId v <> Candidate.id Campus.cand_alice).
  { intros v [<- | [<- | [<- | []]]]; discriminate. }
  destruct (zero_ballot_candidates_are_tallied Campus.db_voted Campus.e_spring
              Campus.cand_alice eq_refl Hin eq_refl Hnone)
    as [results [Hrun [_ Hrow]]].
  exists results. split; [exact Hrun | exact Hrow].
Defined.



(** ** The voter's completion status *)

Lemma obj_set_fresh {V} (o : JsObject V) (k : string) (v : V) :
  ~ In k (map fst o) -> obj_set o k v = o ++ [(k, v)].
Proof.
  induction o as [| [k' v'] o IH]; simpl; intros Hk; [reflexivity |].
  destruct (String.eqb k' k) eqn:Heq.
  - apply String.eqb_eq in Heq. tauto.
  - rewrite IH; tauto.
Qed.

(** Assigning distinct keys one after the other lists them in that order. *)
Lemma obj_set_each {P V} (key : P -> string) (f : P -> V) (ps : list P) :
  forall o : JsObject V,
    NoDup (map key ps) ->
    (forall p, In p ps -> ~ In (key p) (map fst o)) ->
    fold_left (fun o p => obj_set o (key p) (f p)) ps o =
      o ++ map (fun p => (key p, f p)) ps.
Proof.
  induction ps as [| p ps IH]; intros o Hnd Hfresh; cbn [fold_left map].
  - now rewrite app_nil_r.
  - inversion Hnd as [| ? ? Hp Hps]; subst.
    rewrite obj_set_fresh by (apply Hfresh; now left).
    rewrite IH; [now rewrite <- app_assoc | exact Hps |].
    intros q Hq. rewrite map_app, in_app_iff. cbn [map fst].
    intros [Hin | [Heq | []]].
    + apply (Hfresh q); [now right | exact Hin].
    + apply Hp. rewrite Heq. now apply in_map.
Qed.

Lemma collect_userVotes_runs (userId electionId : uuid) (ps : list Position.t) (db : Db) :
  NoDup (map Position.id ps) ->
  collect_userVotes userId electionId ps db =
    (Ok (map (fun p => (Position.id p,
                        hasUserVoted_query userId electionId (Position.id p) db)) ps),
     db).
Proof.
  intros Hnd. unfold collect_userVotes.
  rewrite (foldM_select _
             (fun db o p => obj_set o (Position.id p)
                              (hasUserVoted_query userId electionId (Position.id p) db)))
    by reflexivity.
  rewrite (obj_set_each Position.id
             (fun p => hasUserVoted_query userId electionId (Position.id p) db));
    [reflexivity | exact Hnd | intros p _ []].
Qed.

Lemma count_true_le {A} (f : A -> bool) (l : list A) :
  List.length (filter f l) <= List.length l.
Proof.
  induction l as [| x t IH]; simpl; [lia |]. destruct (f x); simpl; lia.
Qed.

Lemma count_true_all {A} (f : A -> bool) (l : list A) :
  List.length (filter f l) = List.length l <-> forall x, In x l -> f x = true.
Proof.
  induction l as [| x t IH]; simpl.
  - split; [intros _ x [] | reflexivity].
  - pose proof (count_true_le f t) as Hle. destruct (f x) eqn:Hx; simpl.
    + split.
      * intros H y [<- | Hy]; [exact Hx |]. apply IH; [lia | exact Hy].
      * intros H. f_equal. apply IH. intros y Hy. apply H. now right.
    + split; [lia |]. intros H. specialize (H x (or_introl eq_refl)). congruence.
Qed.

Lemma count_true_none {A} (f : A -> bool) (l : list A) :
  List.length (filter f l) = 0 <-> forall x, In x l -> f x = false.
Proof.
  rewrite <- filter_nil_iff. destruct (filter f l); simpl; split; congruence.
Qed.

Lemma count_true_some_false {A} (f : A -> bool) (l : list A) :
  List.length (filter f l) <> List.length l -> exists x, In x l /\ f x = false.
Proof.
  induction l as [| x t IH]; simpl; [congruence |].
  destruct (f x) eqn:Hx; simpl.
  - intros Hne. destruct IH as [y [Hy Hfy]]; [congruence |]. exists y. auto.
  - intros _. exists x. auto.
Qed.

(** The badge, in terms of the positions asked about and the answers. *)
Lemma getUserVotingStatus_cases (e : Election.t) (c : Club.t) (ps : list Position.t)
      (voted : Position.t -> bool) :
  let status :=
    getUserVotingStatus
      (ElectionWithVotes.mk e c ps (Some (map (fun p => (Position.id p, voted p)) ps))) in
  (status = "Completed" <-> forall p, In p ps -> voted p = true) /\
  (status = "Not Voted" <-> ps <> [] /\ forall p, In p ps -> voted p = false) /\
  (status = "Partial" <->
   (exists p, In p ps /\ voted p = true) /\ (exists p, In p ps /\ voted p = false)).
Proof.
  unfold getUserVotingStatus, obj_values.
  cbn [ElectionWithVotes.userVotes ElectionWithVotes.positions].
  rewrite map_map. cbn [snd].
  rewrite <- (map_filter_comm voted (fun b : bool => b)).
  rewrite length_map.
  change (filter (fun x => voted x) ps) with (filter voted ps).
  pose proof (count_true_all voted ps) as Hall.
  pose proof (count_true_none voted ps) as Hnone.
  pose proof (count_true_le voted ps) as Hle.
  destruct (Nat.eqb (List.length (filter voted ps)) (List.length ps)) eqn:Heq.
  - apply Nat.eqb_eq in Heq. rewrite <- Hall.
    split; [tauto | split]; (split; [discriminate |]).
    + intros [Hne Hfalse]. pose proof (proj2 Hnone Hfalse) as Hzero.
      destruct ps; [congruence | simpl in *; lia].
    + intros [_ [p [Hp Hfalse]]]. rewrite (proj1 Hall Heq p Hp) in Hfalse.
      discriminate.
  - apply Nat.eqb_neq in Heq.
    destruct (Nat.ltb 0 (List.length (filter voted ps))) eqn:Hpos.
    + apply Nat.ltb_lt in Hpos. split; [| split].
      * rewrite <- Hall. split; [discriminate | tauto].
      * rewrite <- Hnone. split; [discriminate | lia].
      * split; [intros _ | reflexivity]. split.
        -- destruct (filter voted ps) as [| p t] eqn:Hf; [simpl in Hpos; lia |].
           assert (Hp : In p (filter voted ps)) by (rewrite Hf; now left).
           apply filter_In in Hp. now exists p.
        -- now apply count_true_some_false.
    + apply Nat.ltb_ge in Hpos.
      assert (Hzero : List.length (filter voted ps) = 0) by lia.
      split; [| split].
      * rewrite <- Hall. split; [discriminate | tauto].
      * rewrite <- Hnone. split; [intros _ | reflexivity].
        split; [| exact Hzero]. intros ->. simpl in Heq. congruence.
      * split; [discriminate |]. intros [[p [Hp Htrue]] _].
        rewrite (proj1 Hnone Hzero p Hp) in Htrue. discriminate.
Qed.

Lemma mapM_select_in {A B} (f : A -> M B) (g : A -> B) (l : list A) (db : Db) :
  (forall x, In x l -> f x db = (Ok (g x), db)) ->
  mapM f l db = (Ok (map g l), db).
Proof.
  induction l as [| x t IH]; intros Hf; [reflexivity |].
  cbn [mapM map]. unfold bind.
  rewrite (Hf x (or_introl eq_refl)), IH; [reflexivity |].
  intros y Hy. apply Hf. now right.
Qed.

Lemma get_elections_active_runs (user : User.t) (now : timestamp) (db : Db) :
  schema_ok db = true ->
  get_elections_active (Some user) now db =
    (Sent (map (listed_for user db) (activeElections_query now db)), db).
Proof.
  intros Hok. unfold get_elections_active, try_catch, bind.
  rewrite getActiveElections_runs.
  rewrite (mapM_select_in _
             (fun ae => listed_for user db
                          (ActiveElection.election ae, ActiveElection.club ae))).
  - now rewrite map_map.
  - intros ae Hae. apply in_map_iff in Hae. destruct Hae as [ec [<- _]].
    unfold with_status, bind.
    cbn [ActiveElection.election ActiveElection.club ActiveElection.positions].
    rewrite collect_userVotes_runs; [reflexivity |].
    apply NoDup_map_filter. apply (schema_primary_keys db Hok).
Qed.

(** C7 (as the code has it). Under the schema constraints, for a
    logged-in voter and each election the listing route returns, with P the
    positions of the election's club and [voted p] the answer of
    [hasUserVoted] for position p: the badge reads "Completed" exactly when
    the voter has voted for every position of P (so also when P is empty),
    "Not Voted" exactly when P is not empty and the voter has voted for none
    of its positions, and "Partial" exactly when the voter has voted for some
    position of P and not for some other. *)
Theorem completion_status_by_positions :
  forall (db : Db) (now : timestamp) (user : User.t),
    schema_ok db = true ->
    exists listed,
      get_elections_active (Some user) now db = (Sent listed, db) /\
      forall ew, In ew listed ->
        let e := ElectionWithVotes.election ew in
        let P := getPositionsByClub_query (Election.clubId e) db in
        let voted := fun p => hasUserVoted_query (User.id user) (Election.id e)
                                                 (Position.id p) db in
        ElectionWithVotes.positions ew = P /\
        (getUserVotingStatus ew = "Completed" <-> forall p, In p P -> voted p = true) /\
        (getUserVotingStatus ew = "Not Voted" <->
         P <> [] /\ forall p, In p P -> voted p = false) /\
        (getUserVotingStatus ew = "Partial" <->
         (exists p, In p P /\ voted p = true) /\ (exists p, In p P /\ voted p = false)).
Proof.
  intros db now user Hok.
  exists (map (listed_for user db) (activeElections_query now db)).
  split; [now apply get_elections_active_runs |].
  intros ew Hew. apply in_map_iff in Hew. destruct Hew as [[e c] [<- Hec]].
  apply in_activeElections_query in Hec. destruct Hec as (_ & _ & Hclub & _).
  unfold listed_for. cbn [fst snd ElectionWithVotes.election ElectionWithVotes.positions].
  cbv zeta. rewrite Hclub. split; [reflexivity |].
  apply (getUserVotingStatus_cases e c (getPositionsByClub_query (Club.id c) db)
           (fun p => hasUserVoted_query (User.id user) (Election.id e) (Position.id p) db)).
Qed.

(** The chess club has no positions: Alice has voted for none of the
    positions of its election [blitz], and the badge reads "Completed". *)
Lemma no_positions_reads_completed :
  getPositionsByClub_query (Election.clubId Campus.blitz) Campus.db0 = [] /\
  badges Campus.alice 150 Campus.db0 =
    [(Campus.e_spring, "Not Voted"); (Campus.e_blitz, "Completed")].
Proof. split; reflexivity. Qed.

(** With the positions President and Secretary: "Not Voted" before voting,
    "Partial" after voting for President only, "Completed" after voting for
    both. *)
Lemma completion_transitions :
  let president_vote :=
    mkSubmission (Some Campus.alice) (Campus.body Campus.c_bob Campus.e_spring Campus.p_president)
                 (mkDefaults Campus.v_1 110) in
  let secretary_vote :=
    mkSubmission (Some Campus.alice) (Campus.body Campus.c_dave Campus.e_spring Campus.p_secretary)
                 (mkDefaults Campus.v_2 120) in
  In (Campus.e_spring, "Not Voted") (badges Campus.alice 150 Campus.db0) /\
  In (Campus.e_spring, "Partial")
     (badges Campus.alice 150 (submit_all Campus.db0 [president_vote])) /\
  In (Campus.e_spring, "Completed")
     (badges Campus.alice 150 (submit_all Campus.db0 [president_vote; secretary_vote])).
Proof. cbv zeta. repeat split; vm_compute; tauto. Qed.

Lemma completion_status_by_positions_witness :
  schema_ok Campus.db_voted = true /\
  exists listed,
    get_elections_active (Some Campus.dave) 150 Campus.db_voted =
      (Sent listed, Campus.db_voted) /\
    forall ew, In ew listed ->
      (getUserVotingStatus ew = "Completed" <->
       forall p,
         In p (getPositionsByClub_query
                 (Election.clubId (ElectionWithVotes.election ew)) Campus.db_voted) ->
         hasUserVoted_query Campus.u_dave (Election.id (ElectionWithVotes.election ew))
                            (Position.id p) Campus.db_voted = true).
Proof.
  split; [reflexivity |].
  destruct (completion_status_by_positions Campus.db_voted 150 Campus.dave eq_refl)
    as [listed [Hrun Hall]].
  exists listed. split; [exact Hrun |].
  intros ew Hew. exact (proj1 (proj2 (Hall ew Hew))).
Defined.

(** * Further properties of the voting endpoint *)

(** X1. A submission either stores exactly the ballot it answers with, made of
    the session's user id and the three ids of the body, or stores nothing:
    the answer is 201 in the first case and 400, 401 or 500 in the second; it
    is 401 exactly when nobody is logged in.  Stored ballots and the other
    tables are never touched. *)
Theorem post_vote_outcomes :
  forall (session : option User.t) (body : VoteBody) (d : Defaults) (db : Db),
    let response := fst (post_vote session body d db) in
    let db' := snd (post_vote session body d db) in
    ((status response = 201 /\
      exists user c e p,
        session = Some user /\
        body_candidateId body = Some c /\ body_electionId body = Some e /\
        body_positionId body = Some p /\
        json response =
          VoteJson (Vote.mk (gen_random_uuid d) (User.id user) c e p (now d)) /\
        db' = set_votes db (votes db ++
                [Vote.mk (gen_random_uuid d) (User.id user) c e p (now d)]))
     \/
     ((status response = 400 \/ status response = 401 \/ status response = 500) /\
      db' = db)) /\
    (status response = 401 <-> session = None).
Proof.
  intros session body d db. cbv zeta.
  destruct session as [user |].
  - destruct (post_vote_cases user body d db)
      as [(c & e & p & Hc & He & Hp & [[_ ->] | [_ [(_ & _ & ->) | [_ ->]]]]) | [_ ->]];
      cbn [fst snd status json]; (split; [| split; [discriminate | discriminate]]).
    + right. auto.
    + left. split; [reflexivity |]. exists user, c, e, p. repeat split; assumption.
    + right. auto.
    + right. auto.
  - cbn. split; [right; auto | tauto].
Qed.

(** X2. After a submission answered 201, the eligibility query answers [true] for
    the triple just voted and answers as before for every other triple, and
    sending the same triple again, for whatever candidate, is answered 400 and
    stores nothing. *)
Theorem vote_then_hasUserVoted :
  forall (user : User.t) (anyVoter : option uuid) (c e p : uuid) (d : Defaults) (db : Db),
    status (fst (post_vote (Some user) (mkVoteBody anyVoter (Some c) (Some e) (Some p))
                           d db)) = 201 ->
    let db' := snd (post_vote (Some user) (mkVoteBody anyVoter (Some c) (Some e) (Some p))
                              d db) in
    hasUserVoted_query (User.id user) e p db' = true /\
    (forall u' e' p',
        (u', e', p') <> (User.id user, e, p) ->
        hasUserVoted_query u' e' p' db' = hasUserVoted_query u' e' p' db) /\
    (forall (anyVoter' : option uuid) (c' : uuid) (d' : Defaults),
        post_vote (Some user) (mkVoteBody anyVoter' (Some c') (Some e) (Some p)) d' db' =
          (mkResponse 400 (Message "You have already voted for this position"), db')).
Proof.
  intros user anyVoter c e p d db H201.
  destruct (post_vote_cases user (mkVoteBody anyVoter (Some c) (Some e) (Some p)) d db)
    as [(c0 & e0 & p0 & Hc & He & Hp & Hcases) | [Hmissing _]];
    [| cbn in Hmissing; destruct Hmissing as [H | [H | H]]; discriminate].
  cbn in Hc, He, Hp. inversion Hc; inversion He; inversion Hp; subst c0 e0 p0.
  destruct Hcases as [[_ Hres] | [_ [(_ & _ & Hres) | [_ Hres]]]];
    rewrite Hres in H201; cbn in H201; try discriminate.
  cbv zeta. rewrite Hres. cbn [snd].
  assert (Hvoted : hasUserVoted_query (User.id user) e p
                     (set_votes db (votes db ++
                        [new_vote d (InsertVote.mk (User.id user) c e p)])) = true).
  { apply hasUserVoted_query_iff.
    exists (new_vote d (InsertVote.mk (User.id user) c e p)).
    cbn [set_votes votes]. rewrite in_app_iff. cbn. auto. }
  split; [exact Hvoted | split].
  - intros u' e' p' Hother.
    unfold hasUserVoted_query. cbn [set_votes votes]. rewrite filter_app, length_app.
    cbn [filter]. replace (vote_matches u' e' p' _) with false; [cbn; now rewrite Nat.add_0_r |].
    symmetry. destruct (vote_matches u' e' p' _) eqn:Hm; [| reflexivity].
    apply vote_matches_iff in Hm. cbn in Hm. destruct Hm as (Hu & He' & Hp').
    exfalso. apply Hother. congruence.
  - intros anyVoter' c' d'.
    destruct (post_vote_cases user (mkVoteBody anyVoter' (Some c') (Some e) (Some p)) d'
                (set_votes db (votes db ++
                   [new_vote d (InsertVote.mk (User.id user) c e p)])))
      as [(c0 & e0 & p0 & Hc' & He' & Hp' & Hcases) | [Hmissing _]];
      [| cbn in Hmissing; destruct Hmissing as [H | [H | H]]; discriminate].
    cbn in Hc', He', Hp'. inversion Hc'; inversion He'; inversion Hp'; subst c0 e0 p0.
    destruct Hcases as [[_ Hres'] | [Hfalse _]]; [exact Hres' | congruence].
Qed.

Lemma vote_then_hasUserVoted_witness :
  status (fst (post_vote (Some Campus.alice)
                 (mkVoteBody None (Some Campus.c_bob) (Some Campus.e_spring)
                             (Some Campus.p_president))
                 (mkDefaults Campus.v_1 110) Campus.db0)) = 201 /\
  hasUserVoted_query Campus.u_alice Campus.e_spring Campus.p_president
    (snd (post_vote (Some Campus.alice)
            (mkVoteBody None (Some Campus.c_bob) (Some Campus.e_spring)
                        (Some Campus.p_president))
            (mkDefaults Campus.v_1 110) Campus.db0)) = true.
Proof.
  split; [reflexivity |].
  exact (proj1 (vote_then_hasUserVoted Campus.alice None Campus.c_bob Campus.e_spring
                  Campus.p_president (mkDefaults Campus.v_1 110) Campus.db0 eq_refl)).
Defined.

(** X3. A stored vote counts once: a submission raises [getVoteCount] of the
    candidate it names by one when it is answered 201, and changes no count
    otherwise. *)
Theorem vote_counts_once :
  forall (session : option User.t) (body : VoteBody) (d : Defaults) (db : Db)
         (candidateId : uuid),
    getVoteCount_query candidateId (snd (post_vote session body d db)) =
    getVoteCount_query candidateId db + counted_for session body d db candidateId.
Proof.
  intros session body d db candidateId. unfold counted_for.
  destruct session as [user |]; [| cbn; lia].
  destruct (post_vote_cases user body d db)
    as [(c & e & p & Hc & He & Hp & [[_ ->] | [_ [(_ & _ & ->) | [_ ->]]]]) | [_ ->]];
    cbn [fst snd status Nat.eqb]; try lia.
  rewrite Hc. unfold getVoteCount_query. cbn [set_votes votes].
  rewrite filter_app, length_app. cbn [filter new_vote Vote.candidateId InsertVote.candidateId].
  now destruct (String.eqb c candidateId).
Qed.

(** * The schema constraints are kept *)

Lemma has_key_app (k : uuid) (l l' : list uuid) :
  has_key k (l ++ l') = has_key k l || has_key k l'.
Proof. unfold has_key. apply existsb_app. Qed.

Lemma has_key_snoc_mono (k x : uuid) (l : list uuid) :
  has_key k l = true -> has_key k (l ++ [x]) = true.
Proof. intros H. now rewrite has_key_app, H. Qed.

Lemma distinctb_snoc (l : list string) (x : string) :
  distinctb l = true -> has_key x l = false -> distinctb (l ++ [x]) = true.
Proof.
  rewrite !distinctb_NoDup, has_key_false. apply NoDup_snoc.
Qed.

Lemma forallb_weaken {A} (f g : A -> bool) (l : list A) :
  (forall x, f x = true -> g x = true) ->
  forallb f l = true -> forallb g l = true.
Proof.
  intros Himpl. rewrite !forallb_forall. auto.
Qed.

Lemma forallb_snoc {A} (f : A -> bool) (l : list A) (x : A) :
  forallb f (l ++ [x]) = forallb f l && f x.
Proof. rewrite forallb_app. cbn. now rewrite andb_true_r. Qed.

(** The constraints, one by one. *)
Lemma schema_ok_iff (db : Db) :
  schema_ok db = true <->
  ((distinctb (map User.id (users db)) = true /\
    distinctb (map Club.id (clubs db)) = true /\
    distinctb (map Position.id (positions db)) = true /\
    distinctb (map Election.id (elections db)) = true /\
    distinctb (map Candidate.id (candidates db)) = true /\
    distinctb (map Vote.id (votes db)) = true) /\
   (distinctb (map User.username (users db)) = true /\
    distinctb (map User.email (users db)) = true) /\
   (forallb (fun p => has_key (Position.clubId p) (map Club.id (clubs db)))
            (positions db) = true /\
    forallb (fun e => has_key (Election.clubId e) (map Club.id (clubs db)))
            (elections db) = true /\
    forallb (candidate_refs_ok db) (candidates db) = true /\
    forallb (vote_refs_ok db) (votes db) = true)).
Proof.
  unfold schema_ok, primary_keys_ok, unique_columns_ok, foreign_keys_ok.
  rewrite !andb_true_iff. tauto.
Qed.

Lemma negb_true_false (b : bool) : negb b = true -> b = false.
Proof. now destruct b. Qed.

Lemma castVote_keeps_schema (d : Defaults) (iv : InsertVote.t) (db : Db) :
  schema_ok db = true -> schema_ok (snd (castVote d iv db)) = true.
Proof.
  intros Hok. unfold castVote. cbv zeta.
  destruct (negb _ && vote_refs_ok db _) eqn:Hins; [| exact Hok].
  apply andb_true_iff in Hins. destruct Hins as [Hfresh Hrefs].
  apply negb_true_false in Hfresh.
  apply schema_ok_iff in Hok. apply schema_ok_iff. cbn [snd set_votes users clubs
    positions elections candidates votes].
  destruct Hok as ((Hu & Hc & Hp & He & Hca & Hv) & (Hun & Hem) & (Hfp & Hfe & Hfc & Hfv)).
  repeat split; trivial; try exact Hfc.
  - rewrite map_app. now apply distinctb_snoc.
  - change (vote_refs_ok (set_votes db (votes db ++ [new_vote d iv])))
      with (vote_refs_ok db).
    rewrite forallb_snoc. apply andb_true_iff. split; [exact Hfv | exact Hrefs].
Qed.

Lemma post_vote_keeps_schema (session : option User.t) (body : VoteBody)
      (d : Defaults) (db : Db) :
  schema_ok db = true -> schema_ok (snd (post_vote session body d db)) = true.
Proof.
  intros Hok. destruct session as [user |]; [| exact Hok].
  destruct (post_vote_cases user body d db)
    as [(c & e & p & _ & _ & _ & [[_ ->] | [_ [(Hfresh & Hrefs & ->) | [_ ->]]]]) | [_ ->]];
    try exact Hok.
  cbn [snd].
  pose proof (castVote_keeps_schema d (InsertVote.mk (User.id user) c e p) db Hok) as H.
  unfold castVote in H. cbv zeta in H. rewrite Hfresh, Hrefs in H. exact H.
Qed.

Lemma candidate_refs_mono (db db' : Db) (c : Candidate.t) :
  (forall k, has_key k (map User.id (users db)) = true ->
             has_key k (map User.id (users db')) = true) ->
  (forall k, has_key k (map Election.id (elections db)) = true ->
             has_key k (map Election.id (elections db')) = true) ->
  (forall k, has_key k (map Position.id (positions db)) = true ->
             has_key k (map Position.id (positions db')) = true) ->
  candidate_refs_ok db c = true -> candidate_refs_ok db' c = true.
Proof.
  unfold candidate_refs_ok. rewrite !andb_true_iff. intuition.
Qed.

Lemma vote_refs_mono (db db' : Db) (v : Vote.t) :
  (forall k, has_key k (map User.id (users db)) = true ->
             has_key k (map User.id (users db')) = true) ->
  (forall k, has_key k (map Candidate.id (candidates db)) = true ->
             has_key k (map Candidate.id (candidates db')) = true) ->
  (forall k, has_key k (map Election.id (elections db)) = true ->
             has_key k (map Election.id (elections db')) = true) ->
  (forall k, has_key k (map Position.id (positions db)) = true ->
             has_key k (map Position.id (positions db')) = true) ->
  vote_refs_ok db v = true -> vote_refs_ok db' v = true.
Proof.
  unfold vote_refs_ok. rewrite !andb_true_iff. intuition.
Qed.

Lemma map_snoc_mono {R} (id : R -> uuid) (rows : list R) (r : R) (k : uuid) :
  has_key k (map id rows) = true -> has_key k (map id (rows ++ [r])) = true.
Proof. rewrite map_app. apply has_key_snoc_mono. Qed.

Ltac open_schema Hok :=
  let H := fresh "Hschema" in
  pose proof (proj1 (schema_ok_iff _) Hok) as H;
  destruct H as ((?Hu & ?Hc & ?Hp & ?He & ?Hca & ?Hv) & (?Hun & ?Hem) &
                 (?Hfp & ?Hfe & ?Hfc & ?Hfv)).

Lemma createUser_keeps_schema (d : Defaults) (iu : InsertUser.t) (db : Db) :
  schema_ok db = true -> schema_ok (snd (createUser d iu db)) = true.
Proof.
  intros Hok. open_schema Hok. unfold createUser. cbv zeta.
  destruct (_ && _) eqn:Hins; [| exact Hok].
  rewrite !andb_true_iff in Hins. destruct Hins as [[Hid Hname] Hmail].
  apply negb_true_false in Hid, Hname, Hmail.
  apply schema_ok_iff. cbn [snd set_users users clubs positions elections candidates votes].
  repeat split; trivial; try (rewrite map_app; now apply distinctb_snoc).
  - eapply forallb_weaken; [| exact Hfc]. intros c.
    apply candidate_refs_mono; cbn [set_users users elections positions]; trivial;
      intros k; apply map_snoc_mono.
  - eapply forallb_weaken; [| exact Hfv]. intros v.
    apply vote_refs_mono;
      cbn [set_users users candidates elections positions]; trivial;
      intros k; apply map_snoc_mono.
Qed.

Lemma createClub_keeps_schema (d : Defaults) (ic : InsertClub.t) (db : Db) :
  schema_ok db = true -> schema_ok (snd (createClub d ic db)) = true.
Proof.
  intros Hok. open_schema Hok. unfold createClub. cbv zeta.
  destruct (negb _) eqn:Hid; [| exact Hok]. apply negb_true_false in Hid.
  apply schema_ok_iff. cbn [snd set_clubs users clubs positions elections candidates votes].
  repeat split; trivial.
  - rewrite map_app. now apply distinctb_snoc.
  - eapply forallb_weaken; [| exact Hfp]. intros p. apply map_snoc_mono.
  - eapply forallb_weaken; [| exact Hfe]. intros e. apply map_snoc_mono.
Qed.

Lemma createPosition_keeps_schema (d : Defaults) (ip : InsertPosition.t) (db : Db) :
  schema_ok db = true -> schema_ok (snd (createPosition d ip db)) = true.
Proof.
  intros Hok. open_schema Hok. unfold createPosition. cbv zeta.
  destruct (_ && _) eqn:Hins; [| exact Hok].
  rewrite !andb_true_iff in Hins. destruct Hins as [Hid Hclub].
  apply negb_true_false in Hid.
  apply schema_ok_iff.
  cbn [snd set_positions users clubs positions elections candidates votes].
  repeat split; trivial.
  - rewrite map_app. now apply distinctb_snoc.
  - rewrite forallb_snoc. apply andb_true_iff. split; [exact Hfp | exact Hclub].
  - eapply forallb_weaken; [| exact Hfc]. intros c.
    apply candidate_refs_mono; cbn [set_positions users elections positions]; trivial.
    intros k; apply map_snoc_mono.
  - eapply forallb_weaken; [| exact Hfv]. intros v.
    apply vote_refs_mono;
      cbn [set_positions users candidates elections positions]; trivial.
    intros k; apply map_snoc_mono.
Qed.

Lemma createElection_keeps_schema (d : Defaults) (ie : InsertElection.t) (db : Db) :
  schema_ok db = true -> schema_ok (snd (createElection d ie db)) = true.
Proof.
  intros Hok. open_schema Hok. unfold createElection. cbv zeta.
  destruct (_ && _) eqn:Hins; [| exact Hok].
  rewrite !andb_true_iff in Hins. destruct Hins as [Hid Hclub].
  apply negb_true_false in Hid.
  apply schema_ok_iff.
  cbn [snd set_elections users clubs positions elections candidates votes].
  repeat split; trivial.
  - rewrite map_app. now apply distinctb_snoc.
  - rewrite forallb_snoc. apply andb_true_iff. split; [exact Hfe | exact Hclub].
  - eapply forallb_weaken; [| exact Hfc]. intros c.
    apply candidate_refs_mono; cbn [set_elections users elections positions]; trivial.
    intros k; apply map_snoc_mono.
  - eapply forallb_weaken; [| exact Hfv]. intros v.
    apply vote_refs_mono;
      cbn [set_elections users candidates elections positions]; trivial.
    intros k; apply map_snoc_mono.
Qed.

Lemma createCandidate_keeps_schema (d : Defaults) (ic : InsertCandidate.t) (db : Db) :
  schema_ok db = true -> schema_ok (snd (createCandidate d ic db)) = true.
Proof.
  intros Hok. open_schema Hok. unfold createCandidate. cbv zeta.
  destruct (_ && _) eqn:Hins; [| exact Hok].
  rewrite !andb_true_iff in Hins. destruct Hins as [Hid Hrefs].
  apply negb_true_false in Hid.
  apply schema_ok_iff.
  cbn [snd set_candidates users clubs positions elections candidates votes].
  repeat split; trivial.
  - rewrite map_app. now apply distinctb_snoc.
  - rewrite forallb_snoc. apply andb_true_iff. split; [exact Hfc | exact Hrefs].
  - eapply forallb_weaken; [| exact Hfv]. intros v.
    apply vote_refs_mono;
      cbn [set_candidates users candidates elections positions]; trivial.
    intros k; apply map_snoc_mono.
Qed.

(** * The list of active elections and the admin statistics *)

Lemma elections_join_clubs (db : Db) :
  schema_ok db = true ->
  map fst (innerJoin (elections db) (clubs db)
             (fun e c => String.eqb (Election.clubId e) (Club.id c))) = elections db.
Proof.
  intros Hok. apply innerJoin_keeps_left. intros e He.
  destruct (schema_election_club db e Hok He) as [c [Hc Hid]].
  exists c. apply (filter_by_key Club.id); trivial.
  apply (schema_primary_keys db Hok).
Qed.

Lemma activeElections_query_elections (now : timestamp) (db : Db) :
  schema_ok db = true ->
  Permutation (map fst (activeElections_query now db))
              (filter (election_is_live now) (elections db)).
Proof.
  intros Hok. unfold activeElections_query.
  rewrite (orderBy_perm _ _).
  rewrite (map_filter_comm fst (election_is_live now)).
  now rewrite elections_join_clubs.
Qed.

Lemma by_endDate_total (a b : Election.t * Club.t) :
  Z.leb (Election.endDate (fst a)) (Election.endDate (fst b)) = true \/
  Z.leb (Election.endDate (fst b)) (Election.endDate (fst a)) = true.
Proof. rewrite !Z.leb_le. apply Z.le_ge_cases. Qed.

Lemma by_endDate_trans (a b c : Election.t * Club.t) :
  Z.leb (Election.endDate (fst a)) (Election.endDate (fst b)) = true ->
  Z.leb (Election.endDate (fst b)) (Election.endDate (fst c)) = true ->
  Z.leb (Election.endDate (fst a)) (Election.endDate (fst c)) = true.
Proof. rewrite !Z.leb_le. apply Z.le_trans. Qed.

Lemma map_split_two {A B} (f : A -> B) (l : list A) (l1 l2 l3 : list B) (a b : B) :
  map f l = l1 ++ a :: l2 ++ b :: l3 ->
  exists k1 x k2 y k3, l = k1 ++ x :: k2 ++ y :: k3 /\ f x = a /\ f y = b.
Proof.
  intros H. apply map_eq_app in H. destruct H as (k1 & r1 & -> & _ & H).
  apply map_eq_cons in H. destruct H as (x & r2 & -> & Hx & H).
  apply map_eq_app in H. destruct H as (k2 & r3 & -> & _ & H).
  apply map_eq_cons in H. destruct H as (y & k3 & -> & Hy & _).
  now exists k1, x, k2, y, k3.
Qed.

(** X8. Under the schema constraints, [getActiveElections] lists the elections
    whose activity flag is set and whose end date lies ahead, each once and
    no other, in ascending order of end date; each comes with its club and
    with the positions of that club. *)
Theorem active_elections_listing :
  forall (db : Db) (now : timestamp),
    schema_ok db = true ->
    exists listed,
      getActiveElections now db = (Ok listed, db) /\
      Permutation (map ActiveElection.election listed)
                  (filter (election_is_live now) (elections db)) /\
      (forall ae, In ae listed ->
         In (ActiveElection.club ae) (clubs db) /\
         Club.id (ActiveElection.club ae) = Election.clubId (ActiveElection.election ae) /\
         ActiveElection.positions ae =
           filter (fun p => String.eqb (Position.clubId p)
                                       (Election.clubId (ActiveElection.election ae)))
                  (positions db)) /\
      (forall l1 a l2 b l3,
         listed = l1 ++ a :: l2 ++ b :: l3 ->
         (Election.endDate (ActiveElection.election a) <=
          Election.endDate (ActiveElection.election b))%Z).
Proof.
  intros db now Hok. eexists. split; [apply getActiveElections_runs |].
  split; [| split].
  - rewrite map_map. cbn [ActiveElection.election].
    now apply activeElections_query_elections.
  - intros ae Hae. apply in_map_iff in Hae. destruct Hae as [[e c] [<- Hec]].
    apply in_activeElections_query in Hec. destruct Hec as (_ & Hc & Hclub & _).
    cbn [fst snd ActiveElection.club ActiveElection.election ActiveElection.positions].
    rewrite Hclub. auto.
  - intros l1 a l2 b l3 Hsplit.
    apply map_split_two in Hsplit.
    destruct Hsplit as (k1 & x & k2 & y & k3 & Hquery & <- & <-).
    cbn [ActiveElection.election]. apply Z.leb_le.
    apply (sorted_before
             (fun a b => Z.leb (Election.endDate (fst a)) (Election.endDate (fst b)))
             k1 k2 k3).
    rewrite <- Hquery. unfold activeElections_query.
    apply orderBy_sorted; [apply by_endDate_total | apply by_endDate_trans].
Qed.

Lemma active_elections_listing_witness :
  schema_ok Campus.db0 = true /\
  exists listed,
    getActiveElections 20 Campus.db0 = (Ok listed, Campus.db0) /\
    Permutation (map ActiveElection.election listed)
                [Campus.spring; Campus.winter; Campus.blitz].
Proof.
  split; [reflexivity |].
  destruct (active_elections_listing Campus.db0 20 eq_refl) as [listed [Hrun [Hperm _]]].
  exists listed. split; [exact Hrun | exact Hperm].
Defined.

Lemma list_sum_cons (x : nat) (l : list nat) : list_sum (x :: l) = x + list_sum l.
Proof. reflexivity. Qed.

Lemma list_sum_perm (l l' : list nat) :
  Permutation l l' -> list_sum l = list_sum l'.
Proof.
  intros H. unfold list_sum. induction H; cbn [fold_right]; lia.
Qed.

Lemma count_either {A} (f g : A -> bool) (l : list A) :
  (forall x, f x = true -> g x = false) ->
  List.length (filter (fun x => f x || g x) l) =
  List.length (filter f l) + List.length (filter g l).
Proof.
  intros Hdisj. induction l as [| x t IH]; [reflexivity |]. cbn [filter].
  destruct (f x) eqn:Hf; cbn [orb].
  - rewrite (Hdisj x Hf). cbn [List.length]. lia.
  - destruct (g x); cbn [List.length]; lia.
Qed.

(** Counting the votes key by key, over keys without repetition, counts the
    votes that carry one of the keys. *)
Lemma count_by_key {R} (id : R -> uuid) (rows : list R) (vs : list Vote.t) :
  NoDup (map id rows) ->
  list_sum (map (fun r => List.length
                            (filter (fun v => String.eqb (Vote.candidateId v) (id r)) vs))
                rows) =
  List.length (filter (fun v => has_key (Vote.candidateId v) (map id rows)) vs).
Proof.
  induction rows as [| r rows IH]; intros Hnd.
  - cbn. symmetry. apply count_true_none. reflexivity.
  - inversion Hnd as [| ? ? Hr Hrows]; subst.
    cbn [map]. rewrite list_sum_cons, (IH Hrows).
    change (fun v => has_key (Vote.candidateId v) (id r :: map id rows))
      with (fun v => String.eqb (Vote.candidateId v) (id r) ||
                     has_key (Vote.candidateId v) (map id rows)).
    symmetry. apply count_either.
    intros v Heq. apply String.eqb_eq in Heq. rewrite Heq. now apply has_key_false.
Qed.

(** X10. Under the schema constraints, the [activeElections] of the admin
    statistics is the number of elections [getActiveElections] lists at the
    same moment, and [totalVotes] is the sum of [getVoteCount] over all
    candidates. *)
Theorem admin_stats_agree :
  forall (db : Db) (now : timestamp),
    schema_ok db = true ->
    exists stats listed,
      getAdminStats now db = (Ok stats, db) /\
      getActiveElections now db = (Ok listed, db) /\
      AdminStats.activeElections stats = List.length listed /\
      AdminStats.totalVotes stats =
        list_sum (map (fun c => getVoteCount_query (Candidate.id c) db) (candidates db)).
Proof.
  intros db now Hok. eexists. eexists.
  split; [reflexivity |]. split; [apply getActiveElections_runs |]. split.
  - cbn [getAdminStats_query AdminStats.activeElections]. rewrite length_map.
    rewrite <- (Permutation_length (activeElections_query_elections now db Hok)).
    now rewrite length_map.
  - cbn [getAdminStats_query AdminStats.totalVotes]. unfold getVoteCount_query.
    rewrite (count_by_key Candidate.id) by apply (schema_primary_keys db Hok).
    symmetry. apply count_true_all. intros v Hv.
    apply schema_ok_iff in Hok. destruct Hok as (_ & _ & (_ & _ & _ & Hfv)).
    rewrite forallb_forall in Hfv. specialize (Hfv v Hv).
    unfold vote_refs_ok in Hfv. rewrite !andb_true_iff in Hfv. tauto.
Qed.

Lemma admin_stats_agree_witness :
  schema_ok Campus.db_voted = true /\
  exists stats listed,
    getAdminStats 150 Campus.db_voted = (Ok stats, Campus.db_voted) /\
    getActiveElections 150 Campus.db_voted = (Ok listed, Campus.db_voted) /\
    AdminStats.activeElections stats = List.length listed /\
    AdminStats.totalVotes stats = 3.
Proof.
  split; [reflexivity |].
  destruct (admin_stats_agree Campus.db_voted 150 eq_refl)
    as (stats & listed & Hstats & Hlisted & Hactive & Hvotes).
  exists stats, listed. repeat split; trivial.
Defined.

(** X11. Under the schema constraints, the vote counts of the tally of an
    election add up to the number of stored votes that name a candidate of
    that election, whatever election id those votes carry themselves. *)
Theorem tally_counts_add_up :
  forall (db : Db) (electionId : uuid),
    schema_ok db = true ->
    list_sum (map Result.voteCount (getElectionResults_query electionId db)) =
    List.length
      (filter (fun v =>
                 has_key (Vote.candidateId v)
                         (map Candidate.id
                              (filter (fun c => String.eqb (Candidate.electionId c)
                                                           electionId)
                                      (candidates db))))
              (votes db)).
Proof.
  intros db electionId Hok.
  rewrite (getElectionResults_by_candidate electionId db Hok).
  rewrite (list_sum_perm _ _ (Permutation_map _ (orderBy_perm tally_order _))).
  rewrite map_map. cbn [tally_of Result.voteCount]. unfold getVoteCount_query.
  rewrite <- (count_by_key Candidate.id).
  - rewrite <- (candidate_user_position_candidates db Hok).
    rewrite <- (map_filter_comm (fun row : Candidate.t * User.t * Position.t => fst (fst row))
                  (fun c => String.eqb (Candidate.electionId c) electionId)).
    now rewrite map_map.
  - apply NoDup_map_filter. apply (schema_primary_keys db Hok).
Qed.

Lemma tally_counts_add_up_witness :
  schema_ok Campus.db_voted = true /\
  list_sum (map Result.voteCount
                (getElectionResults_query Campus.e_spring Campus.db_voted)) = 3.
Proof.
  split; [reflexivity |].
  rewrite (tally_counts_add_up Campus.db_voted Campus.e_spring eq_refl). reflexivity.
Defined.

(** * The admin routes *)

(** X18. Without a session, or with a user whose role is not "admin", each of the
    five admin routes answers 403 "Admin access required" and leaves the
    database as it is, whatever the body. *)
Theorem admin_routes_refuse_others :
  forall (session : option User.t),
    not_admin session = true ->
    forall (now : timestamp) (d : Defaults) (id : uuid) (db : Db)
           (club : option InsertClub.t) (position : option InsertPosition.t)
           (election : option InsertElection.t),
      get_admin_stats session now db = (admin_required, db) /\
      post_admin_clubs session club d db = (admin_required, db) /\
      post_admin_positions session position d db = (admin_required, db) /\
      post_admin_elections session election d db = (admin_required, db) /\
      get_election_results session id db = (Failed 403 "Admin access required", db).
Proof.
  intros session Hno now d id db club position election.
  unfold get_admin_stats, post_admin_clubs, post_admin_positions, post_admin_elections.
  rewrite Hno. repeat split.
  unfold get_election_results. destruct session as [user |]; [| reflexivity].
  cbn in Hno. apply negb_true_false in Hno. now rewrite Hno.
Qed.

Lemma admin_routes_refuse_others_witness :
  not_admin (Some Campus.alice) = true /\
  post_admin_clubs (Some Campus.alice) (Some (InsertClub.mk "Drama Club" None None))
                   (mkDefaults Campus.v_9 150) Campus.db0 =
    (admin_required, Campus.db0).
Proof.
  split; [reflexivity |].
  exact (proj1 (proj2 (admin_routes_refuse_others (Some Campus.alice) eq_refl 150
                         (mkDefaults Campus.v_9 150) Campus.e_spring Campus.db0
                         (Some (InsertClub.mk "Drama Club" None None)) None None))).
Defined.

Lemma string_leb_trans (a b c : string) :
  String.leb a b = true -> String.leb b c = true -> String.leb a c = true.
Proof.
  unfold String.leb.
  destruct (String.compare a b) eqn:Hab; try discriminate;
    destruct (String.compare b c) eqn:Hbc; try discriminate; intros _ _.
  - apply String.compare_eq_iff in Hab, Hbc. subst. now rewrite string_compare_refl.
  - apply String.compare_eq_iff in Hab. subst. now rewrite Hbc.
  - apply String.compare_eq_iff in Hbc. subst. now rewrite Hab.
  - now rewrite (string_compare_lt_trans a b c Hab Hbc).
Qed.

(** X19. [GET /api/clubs] answers 200 with every club, each once, in ascending
    order of name, and leaves the database as it is. *)
Theorem clubs_listing :
  forall (db : Db),
    exists listed,
      get_clubs db = (mkHttp 200 (JClubs listed), db) /\
      Permutation listed (clubs db) /\
      forall l1 a l2 b l3,
        listed = l1 ++ a :: l2 ++ b :: l3 ->
        String.leb (Club.name a) (Club.name b) = true.
Proof.
  intros db. exists (getClubs_query db). split; [reflexivity | split].
  - apply orderBy_perm.
  - intros l1 a l2 b l3 Hsplit.
    apply (sorted_before (fun a b => String.leb (Club.name a) (Club.name b)) l1 l2 l3).
    rewrite <- Hsplit. apply orderBy_sorted.
    + intros x y. apply String.leb_total.
    + intros x y z. apply string_leb_trans.
Qed.

Lemma no_key_no_row {R} (f : R -> string) (k : string) (rows : list R) :
  has_key k (map f rows) = false ->
  filter (fun r => String.eqb (f r) k) rows = [].
Proof.
  rewrite has_key_false. intros Hk. apply filter_nil_iff. intros r Hr.
  apply String.eqb_neq. intros Heq. apply Hk. rewrite <- Heq. now apply in_map.
Qed.

(** X20. [createUser] throws and stores nothing when the generated id, the user
    name or the e-mail address is already taken.  Otherwise it appends the
    user, with role "student" and [isVerified] false unless given; the user
    is then found by id, by user name and by e-mail address, and looking up
    any other user name gives what it gave before. *)
Theorem createUser_then_lookup :
  forall (d : Defaults) (iu : InsertUser.t) (db : Db),
    match createUser d iu db with
    | (Ok user, db') =>
        user = new_user d iu /\
        db' = set_users db (users db ++ [user]) /\
        getUser_query (User.id user) db' = Some user /\
        getUserByUsername_query (InsertUser.username iu) db' = Some user /\
        getUserByEmail_query (InsertUser.email iu) db' = Some user /\
        (forall name, name <> InsertUser.username iu ->
                      getUserByUsername_query name db' = getUserByUsername_query name db)
    | (Thrown _, db') =>
        db' = db /\
        (In (gen_random_uuid d) (map User.id (users db)) \/
         In (InsertUser.username iu) (map User.username (users db)) \/
         In (InsertUser.email iu) (map User.email (users db)))
    end.
Proof.
  intros d iu db. unfold createUser. cbv zeta.
  cbn [new_user User.id User.username User.email].
  destruct (has_key (gen_random_uuid d) (map User.id (users db))) eqn:Hid;
    [cbn; rewrite <- has_key_In; auto |].
  destruct (has_key (InsertUser.username iu) (map User.username (users db))) eqn:Hname;
    [cbn; rewrite <- !has_key_In; auto |].
  destruct (has_key (InsertUser.email iu) (map User.email (users db))) eqn:Hmail;
    [cbn; rewrite <- !has_key_In; auto |].
  cbn [negb andb]. split; [reflexivity | split; [reflexivity |]].
  unfold getUser_query, getUserByUsername_query, getUserByEmail_query.
  cbn [set_users users]. rewrite !filter_app.
  change (User.id (new_user d iu)) with (gen_random_uuid d).
  rewrite (no_key_no_row User.id _ _ Hid), (no_key_no_row User.username _ _ Hname),
    (no_key_no_row User.email _ _ Hmail).
  cbn [filter app new_user User.id User.username User.email]. rewrite !String.eqb_refl.
  repeat split.
  intros name Hname'. rewrite filter_app. cbn [filter new_user User.username].
  apply String.eqb_neq in Hname'. rewrite String.eqb_sym, Hname'. now rewrite app_nil_r.
Qed.

(** X16. An admin who posts a position for a club that does not exist gets 500
    and nothing is stored.  For a club that exists (and a fresh id) the
    answer is 201 with the new position, which [getPositionsByClub] then
    lists last for that club; the positions of the other clubs are as
    before. *)
Theorem admin_adds_position :
  forall (admin : User.t) (ip : InsertPosition.t) (d : Defaults) (db : Db),
    User.role admin = "admin" ->
    ~ In (gen_random_uuid d) (map Position.id (positions db)) ->
    (~ In (InsertPosition.clubId ip) (map Club.id (clubs db)) ->
     post_admin_positions (Some admin) (Some ip) d db =
       (mkHttp 500 (JMessage "Failed to create position"), db)) /\
    (In (InsertPosition.clubId ip) (map Club.id (clubs db)) ->
     exists db',
       post_admin_positions (Some admin) (Some ip) d db =
         (mkHttp 201 (JPosition (new_position d ip)), db') /\
       getPositionsByClub_query (InsertPosition.clubId ip) db' =
         getPositionsByClub_query (InsertPosition.clubId ip) db ++ [new_position d ip] /\
       forall clubId, clubId <> InsertPosition.clubId ip ->
                      getPositionsByClub_query clubId db' =
                      getPositionsByClub_query clubId db).
Proof.
  intros admin ip d db Hrole Hfresh.
  apply has_key_false in Hfresh.
  assert (Hadmin : not_admin (Some admin) = false).
  { unfold not_admin. now rewrite Hrole. }
  unfold post_admin_positions. rewrite Hadmin.
  unfold try_catch, bind, parsed, ret, createPosition. cbv beta zeta.
  change (Position.id (new_position d ip)) with (gen_random_uuid d).
  change (Position.clubId (new_position d ip)) with (InsertPosition.clubId ip).
  rewrite Hfresh. cbn [negb andb].
  split; intros Hclub.
  - apply has_key_false in Hclub. now rewrite Hclub.
  - apply has_key_In in Hclub. rewrite Hclub. eexists. split; [reflexivity |].
    unfold getPositionsByClub_query. cbn [set_positions positions].
    split.
    + rewrite filter_app. cbn [filter new_position Position.clubId].
      now rewrite String.eqb_refl.
    + intros clubId Hother. rewrite filter_app. cbn [filter new_position Position.clubId].
      apply String.eqb_neq in Hother. rewrite String.eqb_sym, Hother.
      now rewrite app_nil_r.
Qed.

Lemma admin_adds_position_witness :
  exists db',
    post_admin_positions (Some Office.registrar)
                         (Some (InsertPosition.mk "Treasurer" Campus.k_tech None))
                         (mkDefaults Campus.v_9 150) Campus.db0 =
      (mkHttp 201 (JPosition (Position.mk Campus.v_9 "Treasurer" Campus.k_tech None 150)),
       db') /\
    getPositionsByClub_query Campus.k_tech db' =
      [Campus.president; Campus.secretary;
       Position.mk Campus.v_9 "Treasurer" Campus.k_tech None 150].
Proof.
  assert (Hfresh : ~ In Campus.v_9 (map Position.id (positions Campus.db0))).
  { apply has_key_false. reflexivity. }
  assert (Hclub : In Campus.k_tech (map Club.id (clubs Campus.db0))) by (now left).
  destruct (proj2 (admin_adds_position Office.registrar
                     (InsertPosition.mk "Treasurer" Campus.k_tech None)
                     (mkDefaults Campus.v_9 150) Campus.db0 eq_refl Hfresh) Hclub)
    as [db' [Hrun [Hlist _]]].
  exists db'. split; [exact Hrun | exact Hlist].
Defined.

(** * Listings at the edges *)



(** X14. For a visitor who is not logged in, the list of active elections carries
    an empty [userVotes] for every election, and the badge reads "Completed"
    for an election whose club has no position and "Not Voted" for every
    other, whatever ballots are stored. *)
Theorem visitor_listing :
  forall (db : Db) (now : timestamp),
    exists listed,
      get_elections_active None now db = (Sent listed, db) /\
      forall ew, In ew listed ->
        ElectionWithVotes.userVotes ew = Some [] /\
        getUserVotingStatus ew =
          match ElectionWithVotes.positions ew with
          | [] => "Completed"
          | _ :: _ => "Not Voted"
          end.
Proof.
  intros db now.
  exists (map (fun ec => ElectionWithVotes.mk (fst ec) (snd ec)
                           (getPositionsByClub_query (Club.id (snd ec)) db) (Some []))
              (activeElections_query now db)).
  split.
  - unfold get_elections_active, try_catch, bind. rewrite getActiveElections_runs.
    rewrite (mapM_select_in _
               (fun ae => ElectionWithVotes.mk (ActiveElection.election ae)
                            (ActiveElection.club ae) (ActiveElection.positions ae)
                            (Some []))) by reflexivity.
    now rewrite map_map.
  - intros ew Hew. apply in_map_iff in Hew. destruct Hew as [ec [<- _]].
    split; [reflexivity |]. unfold getUserVotingStatus.
    cbn [ElectionWithVotes.userVotes ElectionWithVotes.positions obj_values map filter
         List.length].
    now destruct (getPositionsByClub_query (Club.id (snd ec)) db).
Qed.

(** X13. For the id of an election that no candidate carries (an unknown
    election among them), the roster route and, for an admin, the results
    route answer with an empty list rather than an error.  For a text that
    is not a uuid both answer 500.  Neither changes the database. *)
Theorem unknown_election_is_empty :
  forall (db : Db) (id : string) (admin : User.t),
    User.role admin = "admin" ->
    (forall electionId, parse_uuid id = Some electionId ->
       (forall c, In c (candidates db) -> Candidate.electionId c <> electionId) ->
       get_election_candidates id db = (Sent [], db) /\
       get_election_results (Some admin) id db = (Sent [], db)) /\
    (parse_uuid id = None ->
       get_election_candidates id db = (Failed 500 "Failed to fetch candidates", db) /\
       get_election_results (Some admin) id db =
         (Failed 500 "Failed to fetch election results", db)).
Proof.
  intros db id admin Hrole.
  pose proof (parse_uuid_route id db) as Hroute.
  split.
  - intros electionId Hid Hnone. rewrite Hid in Hroute.
    destruct Hroute as [Hroster Hresults]. rewrite Hroster, (Hresults admin Hrole).
    assert (Hcup : forall row, In row (candidate_user_position db) ->
                               in_election electionId row = false).
    { intros [[c u] p] Hrow. unfold candidate_user_position in Hrow.
      apply in_innerJoin in Hrow. destruct Hrow as (Hcu & _ & _).
      apply in_innerJoin in Hcu. destruct Hcu as (Hc & _ & _).
      unfold in_election. cbn [fst]. apply String.eqb_neq. now apply Hnone. }
    split.
    + unfold getCandidatesByElection_query.
      rewrite (proj2 (filter_nil_iff _ _)); [reflexivity |].
      intros row Hrow. unfold on_roster.
      change (String.eqb (Candidate.electionId (fst (fst row))) electionId)
        with (in_election electionId row).
      now rewrite (Hcup row Hrow).
    + unfold getElectionResults_query, tally_rows.
      rewrite (leftJoin_filter_left (in_election electionId)).
      rewrite (proj2 (filter_nil_iff _ _) Hcup). reflexivity.
  - intros Hid. rewrite Hid in Hroute. destruct Hroute as [Hroster Hresults].
    split; [exact Hroster | exact (Hresults admin Hrole)].
Qed.

Lemma unknown_election_is_empty_witness :
  (get_election_candidates Campus.e_blitz Campus.db_voted = (Sent [], Campus.db_voted) /\
   get_election_results (Some Office.registrar) Campus.e_blitz Campus.db_voted =
     (Sent [], Campus.db_voted)) /\
  (get_election_candidates "spring-2025" Campus.db_voted =
     (Failed 500 "Failed to fetch candidates", Campus.db_voted) /\
   get_election_results (Some Office.registrar) "spring-2025" Campus.db_voted =
     (Failed 500 "Failed to fetch election results", Campus.db_voted)).
Proof.
  split.
  - apply (proj1 (unknown_election_is_empty Campus.db_voted Campus.e_blitz Office.registrar
                    eq_refl) Campus.e_blitz eq_refl).
    intros c Hc. cbn in Hc.
    repeat (destruct Hc as [<- | Hc]; [discriminate |]). contradiction.
  - exact (proj2 (unknown_election_is_empty Campus.db_voted "spring-2025" Office.registrar
                    eq_refl) eq_refl).
Defined.

(** * The voting dialog *)

Lemma roster_positions_from (roster : list CandidateWithUser.t) :
  forall acc : list uuid,
    NoDup acc ->
    let positions :=
      fold_left
        (fun acc candidate =>
           let id := Position.id (CandidateWithUser.position candidate) in
           if negb (existsb (String.eqb id) acc) then acc ++ [id] else acc)
        roster acc in
    NoDup positions /\
    (forall p, In p positions <->
               In p acc \/
               exists c, In c roster /\ Position.id (CandidateWithUser.position c) = p).
Proof.
  induction roster as [| c roster IH]; intros acc Hnd; cbn [fold_left].
  - split; [exact Hnd |]. intros p. split; [auto |].
    intros [H | [c [[] _]]]. exact H.
  - cbv zeta.
    change (existsb (String.eqb (Position.id (CandidateWithUser.position c))) acc)
      with (has_key (Position.id (CandidateWithUser.position c)) acc).
    destruct (has_key (Position.id (CandidateWithUser.position c)) acc) eqn:Hseen;
      cbn [negb].
    + destruct (IH acc Hnd) as [Hnd' Hin]. split; [exact Hnd' |].
      intros p. rewrite (Hin p). split.
      * intros [H | [c' [Hc' Hp]]]; [now left | right; exists c'; split; [now right | exact Hp]].
      * intros [H | [c' [[<- | Hc'] Hp]]]; [now left | | right; now exists c'].
        left. rewrite <- Hp. now apply has_key_In.
    + assert (Hnd2 : NoDup (acc ++ [Position.id (CandidateWithUser.position c)])).
      { apply NoDup_snoc; [exact Hnd | now apply has_key_false]. }
      destruct (IH _ Hnd2) as [Hnd' Hin]. split; [exact Hnd' |].
      intros p. rewrite (Hin p), in_app_iff. cbn [In]. split.
      * intros [[H | [H | []]] | [c' [Hc' Hp]]].
        -- now left.
        -- right. exists c. split; [now left | exact H].
        -- right. exists c'. split; [now right | exact Hp].
      * intros [H | [c' [[<- | Hc'] Hp]]].
        -- left. now left.
        -- left. right. now left.
        -- right. now exists c'.
Qed.

(** X21. The voting dialog asks for one candidate per position that occurs on the
    roster, each position once.  When a non-empty selection is recorded for
    every such position, the handler starts one vote per position, in the
    order in which the positions first occur on the roster, each for the
    selected election and carrying the recorded selection; when the selection
    for some position is missing or empty, it starts none and shows the toast
    "Incomplete voting". *)
Theorem vote_dialog_all_or_nothing :
  forall (election : ElectionWithVotes.t) (roster : list CandidateWithUser.t)
         (selected : JsObject string),
    let positions := roster_positions roster in
    NoDup positions /\
    (forall p, In p positions <->
               exists c, In c roster /\ Position.id (CandidateWithUser.position c) = p) /\
    ((forall p, In p positions -> truthy (obj_get selected p) = true) ->
     handleVoteSubmission (Some election) (Some roster) selected =
       map (fun p => Mutate (or_default (obj_get selected p) "")
                            (Election.id (ElectionWithVotes.election election)) p)
           positions) /\
    ((exists p, In p positions /\ truthy (obj_get selected p) = false) ->
     handleVoteSubmission (Some election) (Some roster) selected =
       [Toast "Incomplete voting" "Please select a candidate for each position."]).
Proof.
  intros election roster selected positions.
  pose proof (roster_positions_from roster [] (NoDup_nil _)) as Hfrom.
  change (NoDup positions /\
          (forall p, In p positions <->
                     In p [] \/
                     exists c, In c roster /\
                               Position.id (CandidateWithUser.position c) = p))
    in Hfrom.
  destruct Hfrom as [Hnd Hin].
  split; [exact Hnd | split].
  - intros p. rewrite (Hin p). cbn [In]. tauto.
  - unfold handleVoteSubmission. cbv zeta. fold positions.
    rewrite <- (map_filter_comm (fun p => (obj_get selected p, p))
                  (fun vote : option string * uuid => truthy (fst vote))).
    cbn [fst]. rewrite length_map.
    pose proof (count_true_all (fun p => truthy (obj_get selected p)) positions) as Hall.
    split.
    + intros Hsel. rewrite (proj2 Hall Hsel), Nat.eqb_refl. cbn [negb].
      rewrite (forallb_filter_id (fun p => truthy (obj_get selected p)) positions)
        by (apply forallb_forall; exact Hsel).
      now rewrite map_map.
    + intros [p [Hp Hfalse]].
      destruct (Nat.eqb _ _) eqn:Heq; [| reflexivity].
      apply Nat.eqb_eq in Heq. rewrite (proj1 Hall Heq p Hp) in Hfalse. discriminate.
Qed.

(** * A stored vote in the tally *)

(** X4. Under the schema constraints, a submission answered 201 that names a
    stored candidate raises the vote count of that candidate's row by one in
    the tally of the candidate's own election, whatever election id and
    position id the submission carries. *)
Theorem stored_vote_raises_tally :
  forall (db : Db) (user : User.t) (body : VoteBody) (d : Defaults) (cand : Candidate.t),
    schema_ok db = true ->
    In cand (candidates db) ->
    body_candidateId body = Some (Candidate.id cand) ->
    status (fst (post_vote (Some user) body d db)) = 201 ->
    exists before after,
      In before (getElectionResults_query (Candidate.electionId cand) db) /\
      In after (getElectionResults_query (Candidate.electionId cand)
                                         (snd (post_vote (Some user) body d db))) /\
      Result.candidate before = cand /\ Result.candidate after = cand /\
      Result.voteCount after = S (Result.voteCount before).
Proof.
  intros db user body d cand Hok Hcand Hbody H201.
  pose proof (post_vote_keeps_schema (Some user) body d db Hok) as Hok'.
  destruct (post_vote_cases user body d db)
    as [(c & e & p & Hc & He & Hp & [[_ Hres] | [_ [(_ & _ & Hres) | [_ Hres]]]]) | [_ Hres]];
    rewrite Hres in H201, Hok' |- *; cbn [fst snd status] in H201, Hok' |- *;
    try discriminate.
  rewrite Hbody in Hc. inversion Hc; subst c.
  destruct (tally_row_of_candidate db (Candidate.electionId cand) cand Hok Hcand eq_refl)
    as [before (Hb & Hbc & Hbn)].
  destruct (tally_row_of_candidate _ (Candidate.electionId cand) cand Hok' Hcand eq_refl)
    as [after (Ha & Hac & Han)].
  exists before, after. repeat split; trivial.
  rewrite Han, Hbn. unfold getVoteCount_query. cbn [set_votes votes].
  rewrite filter_app, length_app.
  cbn [filter new_vote Vote.candidateId InsertVote.candidateId].
  rewrite String.eqb_refl. cbn [List.length]. lia.
Qed.

(** Alice names Erin's candidacy in the election [winter] while the body
    says [spring]: the vote counts in the tally of [winter]. *)
Lemma stored_vote_raises_tally_witness :
  schema_ok Campus.db0 = true /\
  exists before after,
    In before (getElectionResults_query Campus.e_winter Campus.db0) /\
    In after (getElectionResults_query Campus.e_winter
                (snd (post_vote (Some Campus.alice)
                        (Campus.body Campus.c_erin_winter Campus.e_spring Campus.p_secretary)
                        (mkDefaults Campus.v_1 150) Campus.db0))) /\
    Result.candidate before = Campus.cand_erin_winter /\
    Result.candidate after = Campus.cand_erin_winter /\
    Result.voteCount after = S (Result.voteCount before).
Proof.
  split; [reflexivity |].
  assert (Hin : In Campus.cand_erin_winter (candidates Campus.db0)) by (cbn; tauto).
  exact (stored_vote_raises_tally Campus.db0 Campus.alice
           (Campus.body Campus.c_erin_winter Campus.e_spring Campus.p_secretary)
           (mkDefaults Campus.v_1 150) Campus.cand_erin_winter eq_refl Hin eq_refl eq_refl).
Defined.

(** * Candidacies, elections and overlapping requests *)

(** X12. Under the schema constraints, a candidacy that [createCandidate] stores
    without an approval flag is not approved: it is absent from the roster of
    its election, and present in the tally of its election with no vote. *)
Theorem new_candidacy_needs_approval :
  forall (db : Db) (d : Defaults) (ic : InsertCandidate.t) (c : Candidate.t) (db' : Db),
    schema_ok db = true ->
    InsertCandidate.isApproved ic = None ->
    createCandidate d ic db = (Ok c, db') ->
    Candidate.isApproved c = false /\
    ~ In c (map CandidateWithUser.candidate
                (getCandidatesByElection_query (InsertCandidate.electionId ic) db')) /\
    exists r,
      In r (getElectionResults_query (InsertCandidate.electionId ic) db') /\
      Result.candidate r = c /\ Result.voteCount r = 0.
Proof.
  intros db d ic c db' Hok Hflag Hcreate.
  pose proof (createCandidate_keeps_schema d ic db Hok) as Hok'.
  rewrite Hcreate in Hok'. cbn [snd] in Hok'.
  unfold createCandidate in Hcreate. cbv zeta in Hcreate.
  destruct (_ && _) eqn:Hins; [| discriminate].
  inversion Hcreate as [[Hc Hdb']]. clear Hcreate. subst db'.
  apply andb_true_iff in Hins. destruct Hins as [Hfresh _].
  apply negb_true_false, has_key_false in Hfresh.
  assert (Hnot : Candidate.isApproved (new_candidate d ic) = false).
  { cbn [new_candidate Candidate.isApproved]. now rewrite Hflag. }
  split; [exact Hnot | split].
  - unfold getCandidatesByElection_query. rewrite map_map. cbn [CandidateWithUser.candidate].
    intros Hin. apply in_map_iff in Hin. destruct Hin as [row [Hrow Hin]].
    apply filter_In in Hin. destruct Hin as [_ Hin]. unfold on_roster in Hin.
    rewrite Hrow, Hnot in Hin. rewrite andb_false_r in Hin. discriminate.
  - destruct (tally_row_of_candidate _ (InsertCandidate.electionId ic)
                (new_candidate d ic) Hok') as [r (Hr & Hcand & Hcount)];
      [cbn [set_candidates candidates]; rewrite in_app_iff; right; now left
      | reflexivity |].
    exists r. split; [exact Hr | split; [exact Hcand |]].
    rewrite Hcount. unfold getVoteCount_query. cbn [set_candidates votes].
    rewrite (proj2 (filter_nil_iff _ _)); [reflexivity |].
    intros v Hv. apply String.eqb_neq. intros Hname. apply Hfresh.
    rewrite <- Hname.
    apply schema_ok_iff in Hok. destruct Hok as (_ & _ & (_ & _ & _ & Hfv)).
    rewrite forallb_forall in Hfv. specialize (Hfv v Hv).
    unfold vote_refs_ok in Hfv. rewrite !andb_true_iff in Hfv.
    apply has_key_In. tauto.
Qed.

Lemma new_candidacy_needs_approval_witness :
  schema_ok Campus.db_voted = true /\
  exists c db',
    createCandidate (mkDefaults Campus.v_9 150)
      (InsertCandidate.mk Campus.u_erin Campus.e_spring Campus.p_secretary None None)
      Campus.db_voted = (Ok c, db') /\
    Candidate.isApproved c = false /\
    exists r,
      In r (getElectionResults_query Campus.e_spring db') /\
      Result.candidate r = c /\ Result.voteCount r = 0.
Proof.
  split; [reflexivity |]. eexists. eexists. split; [reflexivity |].
  pose proof (new_candidacy_needs_approval Campus.db_voted (mkDefaults Campus.v_9 150)
                (InsertCandidate.mk Campus.u_erin Campus.e_spring Campus.p_secretary
                                    None None)
                _ _ eq_refl eq_refl eq_refl) as [Hflag [_ Hrow]].
  split; [exact Hflag | exact Hrow].
Defined.

(** X9. Under the schema constraints, an election that [createElection] stores
    without an activity flag is active by default: [getActiveElections] lists
    it at exactly the moments before its end date, its start date playing no
    part, and [getElection] finds it by its id. *)
Theorem created_election_listed_until_end :
  forall (db : Db) (d : Defaults) (ie : InsertElection.t) (e : Election.t) (db' : Db)
         (moment : timestamp),
    schema_ok db = true ->
    InsertElection.isActive ie = None ->
    createElection d ie db = (Ok e, db') ->
    getElection_query (Election.id e) db' = Some e /\
    ((exists listed,
         getActiveElections moment db' = (Ok listed, db') /\
         exists ae, In ae listed /\ ActiveElection.election ae = e) <->
     (moment < InsertElection.endDate ie)%Z).
Proof.
  intros db d ie e db' moment Hok Hflag Hcreate.
  unfold createElection in Hcreate. cbv zeta in Hcreate.
  destruct (_ && _) eqn:Hins; [| discriminate].
  inversion Hcreate as [[He Hdb']]. clear Hcreate. subst db'.
  apply andb_true_iff in Hins. destruct Hins as [Hfresh Hclub].
  apply negb_true_false in Hfresh.
  change (Election.id (new_election d ie)) with (gen_random_uuid d) in Hfresh.
  change (Election.clubId (new_election d ie)) with (InsertElection.clubId ie) in Hclub.
  split.
  - unfold getElection_query. cbn [set_elections elections]. rewrite filter_app.
    change (Election.id (new_election d ie)) with (gen_random_uuid d).
    rewrite (no_key_no_row Election.id _ _ Hfresh).
    cbn [filter app new_election Election.id]. now rewrite String.eqb_refl.
  - rewrite getActiveElections_runs. split.
    + intros [listed [Hlisted [ae [Hae Hel]]]]. inversion Hlisted. subst listed.
      apply in_map_iff in Hae. destruct Hae as [[e' c] [<- Hec]].
      cbn [fst ActiveElection.election] in Hel. subst e'.
      apply in_activeElections_query in Hec. destruct Hec as (_ & _ & _ & _ & Hend).
      exact Hend.
    + intros Hend. apply key_resolves in Hclub. destruct Hclub as [c [Hc Hid]].
      eexists. split; [reflexivity |].
      exists (ActiveElection.mk (new_election d ie) c
                (getPositionsByClub_query (Club.id c)
                   (set_elections db (elections db ++ [new_election d ie])))).
      split; [| reflexivity].
      apply in_map_iff. exists (new_election d ie, c). split; [reflexivity |].
      apply in_activeElections_query. cbn [set_elections elections clubs].
      rewrite in_app_iff. repeat split.
      * right. now left.
      * exact Hc.
      * symmetry. exact Hid.
      * cbn [new_election Election.isActive]. now rewrite Hflag.
      * exact Hend.
Qed.

Lemma created_election_listed_until_end_witness :
  schema_ok Campus.db0 = true /\
  exists e db',
    createElection (mkDefaults Campus.v_9 5)
      (InsertElection.mk Campus.k_chess "Rapid" None 1000 2000 None) Campus.db0 =
      (Ok e, db') /\
    getElection_query Campus.v_9 db' = Some e /\
    exists listed,
      getActiveElections 10 db' = (Ok listed, db') /\
      exists ae, In ae listed /\ ActiveElection.election ae = e.
Proof.
  split; [reflexivity |]. eexists. eexists. split; [reflexivity |].
  pose proof (created_election_listed_until_end Campus.db0 (mkDefaults Campus.v_9 5)
                (InsertElection.mk Campus.k_chess "Rapid" None 1000 2000 None)
                _ _ 10 eq_refl eq_refl eq_refl) as [Hfound Hlisted].
  split; [exact Hfound |]. apply Hlisted. reflexivity.
Defined.

Lemma resume_check (d : Defaults) (vd : InsertVote.t) (db : Db) :
  hasUserVoted_query (InsertVote.voterId vd) (InsertVote.electionId vd)
                     (InsertVote.positionId vd) db = false ->
  resume_vote d (AwaitHasUserVoted vd) db = (AwaitCastVote vd, db).
Proof.
  intros Hvoted. cbn [resume_vote]. unfold hasUserVoted, select. now rewrite Hvoted.
Qed.

Lemma resume_insert (d : Defaults) (vd : InsertVote.t) (db : Db) :
  has_key (gen_random_uuid d) (map Vote.id (votes db)) = false ->
  vote_refs_ok db (new_vote d vd) = true ->
  resume_vote d (AwaitCastVote vd) db =
    (Responded (mkResponse 201 (VoteJson (new_vote d vd))),
     set_votes db (votes db ++ [new_vote d vd])).
Proof.
  intros Hfresh Hrefs. cbn [resume_vote]. unfold castVote. cbv zeta.
  change (Vote.id (new_vote d vd)) with (gen_random_uuid d).
  now rewrite Hfresh, Hrefs.
Qed.

(** X5. When two submissions of one voter for one position are in flight and
    both eligibility queries are answered before either insert runs, both
    submissions are answered 201 and both ballots are stored: the voter then
    holds two ballots for the position. *)
Theorem overlapping_votes_both_stored :
  forall (db : Db) (user : User.t) (c1 c2 e p : uuid) (d1 d2 : Defaults),
    hasUserVoted_query (User.id user) e p db = false ->
    vote_refs_ok db (new_vote d1 (InsertVote.mk (User.id user) c1 e p)) = true ->
    vote_refs_ok db (new_vote d2 (InsertVote.mk (User.id user) c2 e p)) = true ->
    ~ In (gen_random_uuid d1) (map Vote.id (votes db)) ->
    ~ In (gen_random_uuid d2) (map Vote.id (votes db)) ->
    gen_random_uuid d1 <> gen_random_uuid d2 ->
    let v1 := new_vote d1 (InsertVote.mk (User.id user) c1 e p) in
    let v2 := new_vote d2 (InsertVote.mk (User.id user) c2 e p) in
    overlapped (mkSubmission (Some user) (mkVoteBody None (Some c1) (Some e) (Some p)) d1)
               (mkSubmission (Some user) (mkVoteBody None (Some c2) (Some e) (Some p)) d2)
               db =
      (Responded (mkResponse 201 (VoteJson v1)),
       Responded (mkResponse 201 (VoteJson v2)),
       set_votes db ((votes db ++ [v1]) ++ [v2])) /\
    ~ ballots_unique (set_votes db ((votes db ++ [v1]) ++ [v2])).
Proof.
  intros db user c1 c2 e p d1 d2 Hvoted Hrefs1 Hrefs2 Hid1 Hid2 Hdiff v1 v2.
  split.
  - unfold overlapped.
    cbn [sub_session sub_body sub_defaults begin_vote parse_vote ret
         body_candidateId body_electionId body_positionId].
    rewrite (resume_check d1 _ db) by exact Hvoted. cbv beta iota zeta.
    rewrite (resume_check d2 _ db) by exact Hvoted. cbv beta iota zeta.
    rewrite (resume_insert d1 _ db) by (trivial; now apply has_key_false).
    cbv beta iota zeta.
    rewrite (resume_insert d2).
    + reflexivity.
    + cbn [set_votes votes]. apply has_key_false. rewrite map_app, in_app_iff. cbn.
      intros [H | [H | []]]; [now apply Hid2 | now apply Hdiff].
    + exact Hrefs2.
  - unfold ballots_unique. cbn [set_votes votes]. rewrite <- app_assoc, map_app.
    cbn [app map]. intros Hnd. apply NoDup_remove_2 in Hnd. apply Hnd.
    rewrite in_app_iff. right. now left.
Qed.

Lemma overlapping_votes_both_stored_witness :
  ~ ballots_unique
      (set_votes Campus.db0
         (([] ++ [Campus.ballot Campus.v_1 Campus.u_alice Campus.c_bob
                                Campus.p_president 110])
             ++ [Campus.ballot Campus.v_2 Campus.u_alice Campus.c_carol
                               Campus.p_president 110])).
Proof.
  refine (proj2 (overlapping_votes_both_stored Campus.db0 Campus.alice Campus.c_bob
                   Campus.c_carol Campus.e_spring Campus.p_president
                   (mkDefaults Campus.v_1 110) (mkDefaults Campus.v_2 110)
                   eq_refl eq_refl eq_refl _ _ _)).
  - intros [].
  - intros [].
  - discriminate.
Defined.

(** X17. An admin who posts a club whose body does not parse gets 500 and nothing
    is stored.  With a body that parses (and a fresh id) the answer is 201
    with the new club, whose icon is "fas fa-users" unless one was given;
    [getClub] then finds the club by its id, and the club list holds it next
    to the clubs it held before. *)
Theorem admin_adds_club :
  forall (admin : User.t) (ic : InsertClub.t) (d : Defaults) (db : Db),
    User.role admin = "admin" ->
    ~ In (gen_random_uuid d) (map Club.id (clubs db)) ->
    post_admin_clubs (Some admin) None d db =
      (mkHttp 500 (JMessage "Failed to create club"), db) /\
    exists db',
      post_admin_clubs (Some admin) (Some ic) d db =
        (mkHttp 201 (JClub (new_club d ic)), db') /\
      Club.icon (new_club d ic) =
        match InsertClub.icon ic with
        | Some icon => icon
        | None => "fas fa-users"
        end /\
      getClub_query (gen_random_uuid d) db' = Some (new_club d ic) /\
      Permutation (getClubs_query db') (new_club d ic :: getClubs_query db).
Proof.
  intros admin ic d db Hrole Hfresh. apply has_key_false in Hfresh.
  assert (Hadmin : not_admin (Some admin) = false).
  { unfold not_admin. now rewrite Hrole. }
  unfold post_admin_clubs. rewrite Hadmin. split; [reflexivity |].
  unfold try_catch, bind, parsed, ret, createClub. cbv beta zeta.
  change (Club.id (new_club d ic)) with (gen_random_uuid d).
  rewrite Hfresh. cbn [negb]. eexists. split; [reflexivity |].
  split; [reflexivity | split].
  - unfold getClub_query. cbn [set_clubs clubs]. rewrite filter_app.
    rewrite (no_key_no_row Club.id _ _ Hfresh).
    cbn [filter app new_club Club.id]. now rewrite String.eqb_refl.
  - unfold getClubs_query. cbn [set_clubs clubs].
    rewrite !(orderBy_perm _ _). rewrite Permutation_app_comm. reflexivity.
Qed.

Lemma admin_adds_club_witness :
  exists db',
    post_admin_clubs (Some Office.registrar) (Some (InsertClub.mk "Drama Club" None None))
                     (mkDefaults Campus.v_9 150) Campus.db0 =
      (mkHttp 201 (JClub (Club.mk Campus.v_9 "Drama Club" None "fas fa-users" 150)), db') /\
    getClub_query Campus.v_9 db' =
      Some (Club.mk Campus.v_9 "Drama Club" None "fas fa-users" 150).
Proof.
  assert (Hfresh : ~ In Campus.v_9 (map Club.id (clubs Campus.db0))).
  { apply has_key_false. reflexivity. }
  destruct (proj2 (admin_adds_club Office.registrar (InsertClub.mk "Drama Club" None None)
                     (mkDefaults Campus.v_9 150) Campus.db0 eq_refl Hfresh))
    as [db' (Hrun & _ & Hfound & _)].
  exists db'. split; [exact Hrun | exact Hfound].
Defined.
